(** * Presence subsystem of the agora API gateway

    Shallow embedding of the presence code of [backend/api]:
    - [app_state.rs]: [PresenceEvent], the broadcast channel
      [presence_tx] (tokio [broadcast], capacity 64);
    - [routes/users.rs]: [set_presence] and [get_presence];
    - [routes/presence_ws.rs]: [handle_socket], the per-connection
      snapshot and streaming loop.

    The redis connection is modelled as a key-value map from keys to
    [(value, ttl)] together with the keys on which commands fail (network
    or type errors) and whether a [KEYS] scan fails.  The broadcast bus is
    the list of its receivers; a dropped receiver is [None]. *)

From Stdlib Require Import String Ascii.
From stdpp Require Import base gmap strings list.

Delimit Scope string_scope with string.

(* ------------------------------------------------------------------ *)
(** ** Strings: key format and [str::trim_start_matches] *)

(** [s.strip_prefix(p)] *)
Fixpoint strip_prefix (p s : string) : option string :=
  match p, s with
  | EmptyString, _ => Some s
  | String a p', String b s' => if Ascii.eqb a b then strip_prefix p' s' else None
  | String _ _, EmptyString => None
  end.

(** [s.trim_start_matches(p)]: strip [p] from the front as long as it
    matches.  Each strip of a non-empty [p] shortens [s], so [length s + 1]
    rounds always suffice; for the empty pattern Rust returns [s]. *)
Fixpoint trim_start_matches_fuel (fuel : nat) (p s : string) : string :=
  match fuel with
  | O => s
  | S f =>
      match p with
      | EmptyString => s
      | _ => match strip_prefix p s with
             | Some s' => trim_start_matches_fuel f p s'
             | None => s
             end
      end
  end.

Definition trim_start_matches (s p : string) : string :=
  trim_start_matches_fuel (S (String.length s)) p s.

Definition PRESENCE_PREFIX : string := "presence:"%string.

(** [format!("presence:{}", user_id)] *)
Definition presence_key (user_id : string) : string := String.append PRESENCE_PREFIX user_id.

(** [KEYS "presence:*"]: the glob matches the keys that start with
    [presence:]. *)
Definition key_matches (k : string) : bool :=
  match strip_prefix PRESENCE_PREFIX k with Some _ => true | None => false end.

(* ------------------------------------------------------------------ *)
(** ** Redis *)

(** [const PRESENCE_TTL_SECS: u64 = 300] *)
Definition PRESENCE_TTL_SECS : nat := 300.

Record Redis := mkRedis {
  kv : gmap string (string * nat);   (** key -> (value, ttl seconds) *)
  err_keys : list string;            (** commands on these keys fail *)
  keys_err : bool                    (** the KEYS command fails *)
}.

Inductive RedisResult (A : Type) :=
| ROk (a : A)
| RErr.
Arguments ROk {A} a.
Arguments RErr {A}.

Definition failing (r : Redis) (k : string) : bool :=
  existsb (String.eqb k) (err_keys r).

Definition set_kv (r : Redis) (m : gmap string (string * nat)) : Redis :=
  mkRedis m (err_keys r) (keys_err r).

(** [redis.del(&key)]: deleting an absent key is not an error. *)
Definition redis_del (r : Redis) (k : string) : RedisResult Redis :=
  if failing r k then RErr else ROk (set_kv r (delete k (kv r))).

(** [redis.set_ex(&key, value, ttl)] *)
Definition redis_set_ex (r : Redis) (k v : string) (ttl : nat) : RedisResult Redis :=
  if failing r k then RErr else ROk (set_kv r (<[k := (v, ttl)]> (kv r))).

(** [redis.get(&key)] for an [Option<String>] *)
Definition redis_get (r : Redis) (k : string) : RedisResult (option string) :=
  if failing r k then RErr else ROk (fst <$> kv r !! k).

(** [redis.keys("presence:*")] *)
Definition redis_keys (r : Redis) : RedisResult (list string) :=
  if keys_err r then RErr
  else ROk (filter (fun k => key_matches k = true) (fst <$> map_to_list (kv r))).

(** [.unwrap_or(None)] and [.unwrap_or_default()] *)
Definition unwrap_or {A} (x : RedisResult A) (d : A) : A :=
  match x with ROk a => a | RErr => d end.

(* ------------------------------------------------------------------ *)
(** ** The broadcast bus ([tokio::sync::broadcast]) *)

Record PresenceEvent := mkEvent { user_id : string; presence : string }.

#[global] Instance PresenceEvent_eq_dec : EqDecision PresenceEvent.
Proof. solve_decision. Defined.

(** [const PRESENCE_CHANNEL_CAPACITY: usize = 64] *)
Definition PRESENCE_CHANNEL_CAPACITY : nat := 64.

(** A receiver: the events it has not read yet and the number of events
    dropped for it since its last [recv]. *)
Record Rx := mkRx { buf : list PresenceEvent; lag : nat }.

Definition rx_empty : Rx := mkRx [] 0.

(** Delivering one event to a receiver: when it already holds [capacity]
    unread events the oldest one is overwritten and counted as lagged. *)
Definition rx_push (ev : PresenceEvent) (rx : Rx) : Rx :=
  let b := buf rx ++ [ev] in
  if decide (PRESENCE_CHANNEL_CAPACITY < length b)
  then mkRx (tail b) (S (lag rx))
  else mkRx b (lag rx).

Inductive RecvResult :=
| RecvOk (ev : PresenceEvent)
| RecvLagged (n : nat)
| RecvPending.   (** nothing to read yet: [rx.recv()] does not resolve *)

(** [rx.recv()]: a lag is reported first, then reading resumes at the
    oldest event still buffered.  ([RecvError::Closed] needs every sender
    dropped; the sender lives in [AppState] for the process lifetime.) *)
Definition rx_recv (rx : Rx) : RecvResult * Rx :=
  match lag rx with
  | S _ => (RecvLagged (lag rx), mkRx (buf rx) 0)
  | O => match buf rx with
         | [] => (RecvPending, rx)
         | e :: b => (RecvOk e, mkRx b 0)
         end
  end.

Abbreviation Bus := (list (option Rx)).

Definition receiver_count (bus : Bus) : nat :=
  length (filter (fun o => is_Some o) bus).

Inductive SendResult :=
| SendOk (n : nat)
| SendErr (ev : PresenceEvent).   (** no receivers: the value is returned *)

(** [presence_tx.send(event)] *)
Definition broadcast_send (ev : PresenceEvent) (bus : Bus) : SendResult * Bus :=
  match receiver_count bus with
  | O => (SendErr ev, bus)
  | n => (SendOk n, (fun o : option Rx => rx_push ev <$> o) <$> bus)
  end.

(** [presence_tx.subscribe()]: a new receiver, index of it in the bus. *)
Definition broadcast_subscribe (bus : Bus) : nat * Bus :=
  (length bus, bus ++ [Some rx_empty]).

(* ------------------------------------------------------------------ *)
(** ** Application state and the HTTP handlers of [routes/users.rs] *)

(** [AppState]: the optional redis connection (absent when redis was not
    reachable at startup) and the sending side of the presence channel,
    seen through the receivers subscribed to it. *)
Record AppState := mkState { redis : option Redis; presence_tx : Bus }.

Record SetPresenceRequest := mkSetReq {
  req_access_token : string;
  req_user_id : string;
  req_presence : string;           (** "online" | "offline" | "unavailable" *)
  req_status_msg : option string
}.

Inductive StatusCode := OK | SERVICE_UNAVAILABLE | INTERNAL_SERVER_ERROR.

(** The store command of [set_presence]: [del] for "offline", [set_ex]
    with the TTL for any other value. *)
Definition presence_store_op (r : Redis) (req : SetPresenceRequest) : RedisResult Redis :=
  let key := presence_key (req_user_id req) in
  let value := req_presence req in
  if String.eqb value "offline"%string then redis_del r key
  else redis_set_ex r key value PRESENCE_TTL_SECS.

(** [set_presence] up to the store write: either the early return with
    its status code or the state after the write. *)
Definition set_presence_write (st : AppState) (req : SetPresenceRequest)
    : StatusCode + AppState :=
  match redis st with
  | None => inl SERVICE_UNAVAILABLE
  | Some r =>
      match presence_store_op r req with
      | RErr => inl INTERNAL_SERVER_ERROR
      | ROk r' => inr (mkState (Some r') (presence_tx st))
      end
  end.

(** The rest of [set_presence]: broadcast the event, ignore the result of
    [send] (it fails only when there is no receiver), answer OK. *)
Definition set_presence_publish (st : AppState) (req : SetPresenceRequest)
    : StatusCode * AppState :=
  let event := mkEvent (req_user_id req) (req_presence req) in
  let '(_, bus') := broadcast_send event (presence_tx st) in
  (OK, mkState (redis st) bus').

Definition set_presence (st : AppState) (req : SetPresenceRequest) : StatusCode * AppState :=
  match set_presence_write st req with
  | inl code => (code, st)
  | inr st' => set_presence_publish st' req
  end.

Record PresenceResponse := mkResp {
  resp_presence : string;
  resp_last_active_ago : option Z;
  resp_status_msg : option string;
  resp_currently_active : option bool
}.

(** [get_presence] *)
Definition get_presence (st : AppState) (params_user_id : string) : PresenceResponse :=
  match redis st with
  | None => mkResp "offline"%string None None (Some false)
  | Some r =>
      let key := presence_key params_user_id in
      let value := unwrap_or (redis_get r key) None in
      let presence := match value with Some v => v | None => "offline"%string end in
      let currently_active := String.eqb presence "online"%string in
      mkResp presence None None (Some currently_active)
  end.

(* ------------------------------------------------------------------ *)
(** ** [handle_socket] of [routes/presence_ws.rs] *)

(** Outgoing frames.  [serde_json::to_string] of a [PresenceEvent] (two
    strings) does not fail, so a text frame is kept as its event. *)
Inductive Message := MText (ev : PresenceEvent) | MPong (data : list Byte.byte).

Inductive ClientFrame :=
| FClose | FPing (data : list Byte.byte) | FPong (data : list Byte.byte)
| FText (s : string) | FBinary (data : list Byte.byte).

(** What [receiver.next()] yields. *)
Inductive ClientEvent := CFrame (f : ClientFrame) | CError | CEnd.

(** Which branch of the [select!] (or the next await of the connecting
    sequence) resolves. *)
Inductive SessInput := IBus | IClient (e : ClientEvent).

(** [PStart]: before [subscribe]; [PScan]: before [KEYS]; [PSnap ks]: the
    snapshot loop with keys [ks] left; [PStream]: the streaming loop. *)
Inductive Phase := PStart | PScan | PSnap (keys : list string) | PStream | PClosed.

Record Session := mkSession {
  phase : Phase;
  rxid : nat;               (** the subscription [rx], index in the bus *)
  sent : list Message;      (** frames written to the socket *)
  log : list nat;           (** counts of the "dropped {} events" warnings *)
  peer_alive : bool         (** whether [sender.send] succeeds *)
}.

Definition set_phase (s : Session) (p : Phase) : Session :=
  mkSession p (rxid s) (sent s) (log s) (peer_alive s).

Definition push_sent (s : Session) (m : Message) : Session :=
  mkSession (phase s) (rxid s) (sent s ++ [m]) (log s) (peer_alive s).

(** Leaving [handle_socket] drops [rx]. *)
Definition close (s : Session) (st : AppState) : Session * AppState :=
  (set_phase s PClosed, mkState (redis st) (<[rxid s := None]> (presence_tx st))).

Definition session_step (i : SessInput) (s : Session) (st : AppState) : Session * AppState :=
  match phase s with
  | PStart =>
      let '(id, bus') := broadcast_subscribe (presence_tx st) in
      (mkSession (if redis st then PScan else PStream) id (sent s) (log s) (peer_alive s),
       mkState (redis st) bus')
  | PScan =>
      match redis st with
      | Some r => (set_phase s (PSnap (unwrap_or (redis_keys r) [])), st)
      | None => (set_phase s PStream, st)
      end
  | PSnap [] => (set_phase s PStream, st)
  | PSnap (key :: ks) =>
      match redis st with
      | Some r =>
          match unwrap_or (redis_get r key) None with
          | Some presence =>
              let event := mkEvent (trim_start_matches key PRESENCE_PREFIX) presence in
              if peer_alive s then (set_phase (push_sent s (MText event)) (PSnap ks), st)
              else close s st
          | None => (set_phase s (PSnap ks), st)
          end
      | None => (set_phase s PStream, st)
      end
  | PStream =>
      match i with
      | IBus =>
          match presence_tx st !! rxid s with
          | Some (Some rx) =>
              let '(res, rx') := rx_recv rx in
              let st' := mkState (redis st) (<[rxid s := Some rx']> (presence_tx st)) in
              match res with
              | RecvOk event => if peer_alive s then (push_sent s (MText event), st') else close s st'
              | RecvLagged n =>
                  (mkSession (phase s) (rxid s) (sent s) (log s ++ [n]) (peer_alive s), st')
              | RecvPending => (s, st)
              end
          | _ => (s, st)
          end
      | IClient (CFrame FClose) | IClient CEnd => close s st
      | IClient (CFrame (FPing data)) =>
          ((if peer_alive s then push_sent s (MPong data) else s), st)
      | IClient _ => (s, st)
      end
  | PClosed => (s, st)
  end.

(* ------------------------------------------------------------------ *)
(** ** Interleaving of sessions and writers *)

(** A [set_presence] call in flight: it awaits the store command, then
    publishes; other tasks may run between the two. *)
Inductive WPc := WStart | WPub | WDone (code : StatusCode).

Record Writer := mkWriter { wreq : SetPresenceRequest; wpc : WPc }.

Definition writer_step (w : Writer) (st : AppState) : Writer * AppState :=
  match wpc w with
  | WStart =>
      match set_presence_write st (wreq w) with
      | inl code => (mkWriter (wreq w) (WDone code), st)
      | inr st' => (mkWriter (wreq w) WPub, st')
      end
  | WPub =>
      let '(code, st') := set_presence_publish st (wreq w) in
      (mkWriter (wreq w) (WDone code), st')
  | WDone _ => (w, st)
  end.

Record Sys := mkSys { app : AppState; sess : Session; writers : list Writer }.

Inductive Choice := CSess (i : SessInput) | CWriter (n : nat).

Definition sys_step (sys : Sys) (c : Choice) : Sys :=
  match c with
  | CSess i =>
      let '(s', st') := session_step i (sess sys) (app sys) in
      mkSys st' s' (writers sys)
  | CWriter n =>
      match writers sys !! n with
      | Some w =>
          let '(w', st') := writer_step w (app sys) in
          mkSys st' (sess sys) (<[n := w']> (writers sys))
      | None => sys
      end
  end.

Definition run (sys : Sys) (sched : list Choice) : Sys := fold_left sys_step sched sys.

(* ------------------------------------------------------------------ *)
(** ** Statement helpers *)

(** The three presence values the request type documents. *)
Definition valid_presence (p : string) : bool :=
  String.eqb p "online"%string || String.eqb p "offline"%string
  || String.eqb p "unavailable"%string.

(** [needle] occurs in [hay]. *)
Fixpoint contains (needle hay : string) : bool :=
  match strip_prefix needle hay with
  | Some _ => true
  | None => match hay with EmptyString => false | String _ h => contains needle h end
  end.

(** The store map after a successful [set_presence] write. *)
Definition written_kv (r : Redis) (req : SetPresenceRequest) : gmap string (string * nat) :=
  let key := presence_key (req_user_id req) in
  if String.eqb (req_presence req) "offline"%string then delete key (kv r)
  else <[key := (req_presence req, PRESENCE_TTL_SECS)]> (kv r).

Definition req_event (req : SetPresenceRequest) : PresenceEvent :=
  mkEvent (req_user_id req) (req_presence req).

(* ------------------------------------------------------------------ *)
(** ** Lemmas on [set_presence] *)

Lemma presence_store_op_ok (r : Redis) (req : SetPresenceRequest) :
  failing r (presence_key (req_user_id req)) = false ->
  presence_store_op r req = ROk (set_kv r (written_kv r req)).
Proof.
  intros Hf. unfold presence_store_op, written_kv, redis_del, redis_set_ex.
  destruct (String.eqb _ _); rewrite Hf; reflexivity.
Qed.

Lemma presence_store_op_err (r : Redis) (req : SetPresenceRequest) :
  failing r (presence_key (req_user_id req)) = true ->
  presence_store_op r req = RErr.
Proof.
  intros Hf. unfold presence_store_op, redis_del, redis_set_ex.
  destruct (String.eqb _ _); rewrite Hf; reflexivity.
Qed.

Lemma set_presence_success (st : AppState) (r : Redis) (req : SetPresenceRequest) :
  redis st = Some r ->
  failing r (presence_key (req_user_id req)) = false ->
  set_presence st req =
    (OK, mkState (Some (set_kv r (written_kv r req)))
                 (snd (broadcast_send (req_event req) (presence_tx st)))).
Proof.
  intros Hr Hf. unfold set_presence, set_presence_write.
  rewrite Hr, presence_store_op_ok by exact Hf.
  unfold set_presence_publish; simpl.
  destruct (broadcast_send _ _); reflexivity.
Qed.

Lemma set_presence_cases (st : AppState) (req : SetPresenceRequest) :
  (exists r r', redis st = Some r /\ presence_store_op r req = ROk r' /\
     set_presence st req =
       (OK, mkState (Some r') (snd (broadcast_send (req_event req) (presence_tx st))))) \/
  (set_presence_write st req = inl (fst (set_presence st req)) /\
   fst (set_presence st req) <> OK /\ snd (set_presence st req) = st).
Proof.
  unfold set_presence, set_presence_write.
  destruct (redis st) as [r|] eqn:Hr.
  - destruct (presence_store_op r req) as [r'|] eqn:Hop.
    + left. exists r, r'. split; [reflexivity|]. split; [exact Hop|].
      unfold set_presence_publish; simpl. destruct (broadcast_send _ _); reflexivity.
    + right. simpl. split; [reflexivity|]. split; [discriminate|reflexivity].
  - right. simpl. split; [reflexivity|]. split; [discriminate|reflexivity].
Qed.

Lemma written_kv_lookup_key (r : Redis) (req : SetPresenceRequest) :
  written_kv r req !! presence_key (req_user_id req) =
  if String.eqb (req_presence req) "offline"%string then None
  else Some (req_presence req, PRESENCE_TTL_SECS).
Proof.
  unfold written_kv. destruct (String.eqb _ _).
  - apply lookup_delete_eq.
  - apply lookup_insert_eq.
Qed.

(* ------------------------------------------------------------------ *)
(** ** Concrete states *)

Definition redis_empty : Redis := mkRedis ∅ [] false.

(** Store reachable and empty, one session subscribed. *)
Definition st_one_sub : AppState := mkState (Some redis_empty) [Some rx_empty].

Definition req_of (u p : string) (m : option string) : SetPresenceRequest :=
  mkSetReq "token"%string u p m.

(* ------------------------------------------------------------------ *)
(** ** The write path: [set_presence] *)

(** C1 (as stated; refuted): a request whose presence is none of online,
    offline, unavailable is rejected without store mutation or publish.
    With presence "away" the call answers OK and changes the state. *)
Lemma C1_away_accepted :
  ~ (forall (st : AppState) (req : SetPresenceRequest),
       valid_presence (req_presence req) = false ->
       fst (set_presence st req) <> OK /\ snd (set_presence st req) = st).
Proof.
  intros H.
  destruct (H st_one_sub (req_of "@alice:agora"%string "away"%string None) eq_refl) as [Hc _].
  apply Hc. vm_compute. reflexivity.
Qed.

(** C1 (amended): no presence value is validated.  Any value other than
    "offline", e.g. "away", is written with the TTL and published to every
    subscriber, and the call answers OK, when the store is reachable and
    the write succeeds. *)
Theorem C1_no_validation (st : AppState) (r : Redis) (req : SetPresenceRequest) :
  redis st = Some r ->
  String.eqb (req_presence req) "offline"%string = false ->
  failing r (presence_key (req_user_id req)) = false ->
  set_presence st req =
    (OK, mkState (Some (set_kv r (<[presence_key (req_user_id req) :=
                                     (req_presence req, PRESENCE_TTL_SECS)]> (kv r))))
                 (snd (broadcast_send (req_event req) (presence_tx st)))).
Proof.
  intros Hr Hoff Hf. rewrite (set_presence_success st r req Hr Hf).
  unfold written_kv. rewrite Hoff. reflexivity.
Qed.

Lemma C1_no_validation_witness :
  set_presence st_one_sub (req_of "@alice:agora"%string "away"%string None) =
    (OK, mkState (Some (set_kv redis_empty
                          (<[presence_key "@alice:agora"%string :=
                               ("away"%string, PRESENCE_TTL_SECS)]> (kv redis_empty))))
                 (snd (broadcast_send (mkEvent "@alice:agora"%string "away"%string)
                                      [Some rx_empty]))).
Proof.
  apply (C1_no_validation st_one_sub redis_empty); reflexivity.
Defined.

(** C2: the event is published if and only if the store write succeeded.
    A failed (or impossible) write answers a failure code and leaves the
    state, bus included, unchanged; a successful write publishes the event
    and answers OK, also when the bus has no receiver. *)
Theorem C2_publish_iff_store_ok (st : AppState) (req : SetPresenceRequest) :
  (fst (set_presence st req) = OK <->
     exists r r', redis st = Some r /\ presence_store_op r req = ROk r') /\
  (forall r r', redis st = Some r -> presence_store_op r req = ROk r' ->
     snd (set_presence st req) =
       mkState (Some r') (snd (broadcast_send (req_event req) (presence_tx st)))) /\
  (fst (set_presence st req) <> OK -> snd (set_presence st req) = st) /\
  (receiver_count (presence_tx st) = 0 ->
   forall r r', redis st = Some r -> presence_store_op r req = ROk r' ->
     fst (broadcast_send (req_event req) (presence_tx st)) = SendErr (req_event req) /\
     fst (set_presence st req) = OK).
Proof.
  destruct (set_presence_cases st req) as [(r & r' & Hr & Hop & Heq) | (Hw & Hne & Hst)].
  - rewrite Heq. simpl. split; [|split; [|split]].
    + split; [intros _; eauto|reflexivity].
    + intros r1 r1' Hr1 Hop1. rewrite Hr in Hr1. injection Hr1 as <-.
      rewrite Hop in Hop1. injection Hop1 as <-. reflexivity.
    + intros Hc. exfalso. apply Hc. reflexivity.
    + intros H0 _ _ _ _. unfold broadcast_send. rewrite H0. split; reflexivity.
  - split; [|split; [|split]].
    + split; [intros Hc; contradiction|].
      intros (r & r' & Hr & Hop). exfalso.
      unfold set_presence_write in Hw. rewrite Hr, Hop in Hw. discriminate.
    + intros r r' Hr Hop. exfalso.
      unfold set_presence_write in Hw. rewrite Hr, Hop in Hw. discriminate.
    + intros _. exact Hst.
    + intros _ r r' Hr Hop. exfalso.
      unfold set_presence_write in Hw. rewrite Hr, Hop in Hw. discriminate.
Qed.

Lemma C2_publish_iff_store_ok_witness :
  fst (broadcast_send (req_event (req_of "@bob:agora"%string "online"%string None)) []) =
    SendErr (req_event (req_of "@bob:agora"%string "online"%string None)) /\
  fst (set_presence (mkState (Some redis_empty) [])
                    (req_of "@bob:agora"%string "online"%string None)) = OK.
Proof.
  apply (proj2 (proj2 (proj2 (C2_publish_iff_store_ok (mkState (Some redis_empty) [])
                (req_of "@bob:agora"%string "online"%string None))))
           eq_refl redis_empty
           (set_kv redis_empty (written_kv redis_empty
                                 (req_of "@bob:agora"%string "online"%string None)))).
  - reflexivity.
  - vm_compute. reflexivity.
Defined.

(** C3: "offline" deletes the user's key; any other value upserts it with
    the value and a fresh TTL of [PRESENCE_TTL_SECS]. *)
Theorem C3_offline_deletes_else_upserts (st : AppState) (r : Redis) (req : SetPresenceRequest) :
  redis st = Some r ->
  failing r (presence_key (req_user_id req)) = false ->
  fst (set_presence st req) = OK /\
  redis (snd (set_presence st req)) =
    Some (set_kv r
      (if String.eqb (req_presence req) "offline"%string
       then delete (presence_key (req_user_id req)) (kv r)
       else <[presence_key (req_user_id req) := (req_presence req, PRESENCE_TTL_SECS)]> (kv r))).
Proof.
  intros Hr Hf. rewrite (set_presence_success st r req Hr Hf). split; reflexivity.
Qed.

Lemma C3_offline_deletes_else_upserts_witness :
  fst (set_presence st_one_sub (req_of "@carol:agora"%string "unavailable"%string None)) = OK /\
  redis (snd (set_presence st_one_sub (req_of "@carol:agora"%string "unavailable"%string None))) =
    Some (set_kv redis_empty
      (<[presence_key "@carol:agora"%string := ("unavailable"%string, PRESENCE_TTL_SECS)]>
         (kv redis_empty))).
Proof.
  apply (C3_offline_deletes_else_upserts st_one_sub redis_empty); reflexivity.
Defined.

(* ------------------------------------------------------------------ *)
(** ** The read path: [get_presence] *)

(** C4: [get_presence] always answers a presence value (its result is a
    response, not an error); it is "offline" when redis is unavailable,
    when the read fails and when the key is absent, and the stored value
    otherwise. *)
Theorem C4_get_presence_defaults_offline (st : AppState) (u : string) :
  (redis st = None -> resp_presence (get_presence st u) = "offline"%string) /\
  (forall r, redis st = Some r ->
     failing r (presence_key u) = true \/ kv r !! presence_key u = None ->
     resp_presence (get_presence st u) = "offline"%string) /\
  (forall r v t, redis st = Some r -> failing r (presence_key u) = false ->
     kv r !! presence_key u = Some (v, t) ->
     resp_presence (get_presence st u) = v).
Proof.
  unfold get_presence, unwrap_or, redis_get.
  split; [|split].
  - intros ->. reflexivity.
  - intros r -> [Hf | Hk].
    + rewrite Hf. reflexivity.
    + destruct (failing r (presence_key u)); [reflexivity|]. rewrite Hk. reflexivity.
  - intros r v t -> Hf Hk. rewrite Hf, Hk. reflexivity.
Qed.

Lemma C4_get_presence_defaults_offline_witness :
  resp_presence (get_presence (mkState None []) "@dave:agora"%string) = "offline"%string /\
  resp_presence (get_presence st_one_sub "@dave:agora"%string) = "offline"%string /\
  resp_presence (get_presence (mkState (Some (mkRedis ∅ [presence_key "@dave:agora"%string] false)) [])
                              "@dave:agora"%string) = "offline"%string.
Proof.
  split; [|split].
  - apply (proj1 (C4_get_presence_defaults_offline (mkState None []) "@dave:agora"%string)).
    reflexivity.
  - apply (proj1 (proj2 (C4_get_presence_defaults_offline st_one_sub "@dave:agora"%string))
             redis_empty); [reflexivity|right; reflexivity].
  - apply (proj1 (proj2 (C4_get_presence_defaults_offline
                           (mkState (Some (mkRedis ∅ [presence_key "@dave:agora"%string] false)) [])
                           "@dave:agora"%string))
             (mkRedis ∅ [presence_key "@dave:agora"%string] false));
      [reflexivity|left; vm_compute; reflexivity].
Defined.

(* ------------------------------------------------------------------ *)
(** ** Idempotent offline and the status message *)

(** C8: two "offline" requests for the same user in a row both answer OK
    and leave the user's key absent after each, when the store is
    reachable and its commands on that key succeed. *)
Theorem C8_offline_twice (st : AppState) (r : Redis) (tok u : string) (m : option string) :
  redis st = Some r ->
  failing r (presence_key u) = false ->
  let req := mkSetReq tok u "offline"%string m in
  let st1 := snd (set_presence st req) in
  let st2 := snd (set_presence st1 req) in
  fst (set_presence st req) = OK /\ fst (set_presence st1 req) = OK /\
  (exists r1, redis st1 = Some r1 /\ kv r1 !! presence_key u = None) /\
  (exists r2, redis st2 = Some r2 /\ kv r2 !! presence_key u = None).
Proof.
  intros Hr Hf req st1 st2.
  assert (E1 : set_presence st req =
    (OK, mkState (Some (set_kv r (written_kv r req)))
                 (snd (broadcast_send (req_event req) (presence_tx st)))))
    by (apply set_presence_success; assumption).
  set (r1 := set_kv r (written_kv r req)).
  assert (Hk1 : kv r1 !! presence_key u = None)
    by (apply (written_kv_lookup_key r req)).
  assert (Hr1 : redis st1 = Some r1) by (unfold st1; rewrite E1; reflexivity).
  assert (Hf1 : failing r1 (presence_key u) = false) by exact Hf.
  assert (E2 : set_presence st1 req =
    (OK, mkState (Some (set_kv r1 (written_kv r1 req)))
                 (snd (broadcast_send (req_event req) (presence_tx st1)))))
    by (apply set_presence_success; assumption).
  split; [rewrite E1; reflexivity|]. split; [rewrite E2; reflexivity|].
  split; [exists r1; split; assumption|].
  exists (set_kv r1 (written_kv r1 req)). split.
  - unfold st2. rewrite E2. reflexivity.
  - apply (written_kv_lookup_key r1 req).
Qed.

Lemma C8_offline_twice_witness :
  let st := mkState (Some (mkRedis ∅ [] false)) [Some rx_empty] in
  let req := mkSetReq "token"%string "@erin:agora"%string "offline"%string None in
  let st1 := snd (set_presence st req) in
  let st2 := snd (set_presence st1 req) in
  fst (set_presence st req) = OK /\ fst (set_presence st1 req) = OK /\
  (exists r1, redis st1 = Some r1 /\ kv r1 !! presence_key "@erin:agora"%string = None) /\
  (exists r2, redis st2 = Some r2 /\ kv r2 !! presence_key "@erin:agora"%string = None).
Proof.
  exact (C8_offline_twice (mkState (Some (mkRedis ∅ [] false)) [Some rx_empty])
           (mkRedis ∅ [] false) "token"%string "@erin:agora"%string None eq_refl eq_refl).
Defined.

(** C9 (as stated; refuted): a successful non-offline request carrying a
    status message stores a value that includes the message.  With
    presence "online" and message "brb" the stored value is "online". *)
Lemma C9_status_msg_dropped :
  ~ (forall (st : AppState) (req : SetPresenceRequest) (msg : string),
       String.eqb (req_presence req) "offline"%string = false ->
       req_status_msg req = Some msg ->
       fst (set_presence st req) = OK ->
       exists r' v t, redis (snd (set_presence st req)) = Some r' /\
         kv r' !! presence_key (req_user_id req) = Some (v, t) /\
         contains msg v = true).
Proof.
  intros H.
  destruct (H st_one_sub (req_of "@frank:agora"%string "online"%string (Some "brb"%string))
              "brb"%string eq_refl eq_refl ltac:(vm_compute; reflexivity))
    as (r' & v & t & Hr & Hk & Hc).
  vm_compute in Hr. injection Hr as <-.
  vm_compute in Hk. injection Hk as <- _.
  vm_compute in Hc. discriminate.
Qed.

(** C9 (amended): the stored value is the presence string alone; the
    status message is ignored, so a request with a message has exactly the
    effect of the same request without one. *)
Theorem C9_status_msg_ignored (st : AppState) (tok u p : string) (m : option string) :
  set_presence st (mkSetReq tok u p m) = set_presence st (mkSetReq tok u p None) /\
  (forall r, redis st = Some r -> failing r (presence_key u) = false ->
     String.eqb p "offline"%string = false ->
     exists r', redis (snd (set_presence st (mkSetReq tok u p m))) = Some r' /\
       kv r' !! presence_key u = Some (p, PRESENCE_TTL_SECS)).
Proof.
  split; [reflexivity|].
  intros r Hr Hf Hoff.
  rewrite (set_presence_success st r (mkSetReq tok u p m) Hr Hf).
  exists (set_kv r (written_kv r (mkSetReq tok u p m))). split; [reflexivity|].
  change (written_kv r (mkSetReq tok u p m) !! presence_key (req_user_id (mkSetReq tok u p m))
          = Some (p, PRESENCE_TTL_SECS)).
  rewrite written_kv_lookup_key. simpl. rewrite Hoff. reflexivity.
Qed.

Lemma C9_status_msg_ignored_witness :
  exists r', redis (snd (set_presence st_one_sub
                (mkSetReq "token"%string "@frank:agora"%string "online"%string (Some "brb"%string))))
             = Some r' /\
    kv r' !! presence_key "@frank:agora"%string = Some ("online"%string, PRESENCE_TTL_SECS).
Proof.
  apply (proj2 (C9_status_msg_ignored st_one_sub "token"%string "@frank:agora"%string
                  "online"%string (Some "brb"%string)) redis_empty); reflexivity.
Defined.

(* ------------------------------------------------------------------ *)
(** ** Lemmas on strings *)

Lemma strip_prefix_append (p s : string) : strip_prefix p (String.append p s) = Some s.
Proof.
  induction p as [|a p IH]; simpl; [reflexivity|].
  rewrite Ascii.eqb_refl. exact IH.
Qed.

Lemma strip_prefix_length (p s s' : string) :
  strip_prefix p s = Some s' -> String.length s = String.length p + String.length s'.
Proof.
  revert s. induction p as [|a p IH]; intros s H; simpl in H.
  - injection H as <-. reflexivity.
  - destruct s as [|b s]; [discriminate|].
    destruct (Ascii.eqb a b); [|discriminate].
    simpl. f_equal. apply IH. exact H.
Qed.

Lemma trim_start_matches_fuel_length (f : nat) (p s : string) :
  String.length (trim_start_matches_fuel f p s) <= String.length s.
Proof.
  revert s. induction f as [|f IH]; intros s; simpl; [lia|].
  destruct p as [|a p']; [lia|].
  destruct (strip_prefix (String a p') s) as [s'|] eqn:E; [|lia].
  apply strip_prefix_length in E. simpl in E.
  specialize (IH s'). lia.
Qed.

Lemma trim_start_matches_fuel_step (f : nat) (p s : string) :
  p <> EmptyString ->
  trim_start_matches_fuel (S f) p s =
    match strip_prefix p s with
    | Some s' => trim_start_matches_fuel f p s'
    | None => s
    end.
Proof. destruct p; [congruence|reflexivity]. Qed.

Lemma length_presence_key (u : string) :
  String.length (presence_key u) = S (8 + String.length u).
Proof. reflexivity. Qed.

(** The user id recovered from a key [presence:{u}]. *)
Lemma trim_presence_key_plain (u : string) :
  strip_prefix PRESENCE_PREFIX u = None ->
  trim_start_matches (presence_key u) PRESENCE_PREFIX = u.
Proof.
  intros H. unfold trim_start_matches. rewrite length_presence_key.
  rewrite trim_start_matches_fuel_step by discriminate.
  unfold presence_key. rewrite strip_prefix_append.
  rewrite trim_start_matches_fuel_step by discriminate.
  rewrite H. reflexivity.
Qed.

Lemma trim_presence_key_prefixed (u w : string) :
  strip_prefix PRESENCE_PREFIX u = Some w ->
  trim_start_matches (presence_key u) PRESENCE_PREFIX <> u.
Proof.
  intros H Heq. unfold trim_start_matches in Heq. rewrite length_presence_key in Heq.
  rewrite trim_start_matches_fuel_step in Heq by discriminate.
  unfold presence_key in Heq. rewrite strip_prefix_append in Heq.
  rewrite trim_start_matches_fuel_step in Heq by discriminate.
  rewrite H in Heq.
  pose proof (strip_prefix_length _ _ _ H) as Hl.
  pose proof (trim_start_matches_fuel_length (8 + String.length u) PRESENCE_PREFIX w) as Ht.
  rewrite Heq in Ht. simpl in Hl. lia.
Qed.

(* ------------------------------------------------------------------ *)
(** ** The connection sequence against a store that does not change *)

(** The frames the snapshot loop sends for the keys [ks]. *)
Definition per_key_frames (r : Redis) (key : string) : list Message :=
  match unwrap_or (redis_get r key) None with
  | Some presence => [MText (mkEvent (trim_start_matches key PRESENCE_PREFIX) presence)]
  | None => []
  end.

Fixpoint snap_frames (r : Redis) (ks : list string) : list Message :=
  match ks with
  | [] => []
  | key :: ks' => per_key_frames r key ++ snap_frames r ks'
  end.

Definition snapshot_keys (r : Redis) : list string := unwrap_or (redis_keys r) [].

Lemma run_cons (sys : Sys) (c : Choice) (l : list Choice) :
  run sys (c :: l) = run (sys_step sys c) l.
Proof. reflexivity. Qed.

Lemma run_app (sys : Sys) (l1 l2 : list Choice) :
  run sys (l1 ++ l2) = run (run sys l1) l2.
Proof. unfold run. apply fold_left_app. Qed.

Lemma snapshot_loop_run (r : Redis) (ks : list string) (st : AppState) (s : Session)
    (ws : list Writer) (i : SessInput) :
  redis st = Some r -> phase s = PSnap ks -> peer_alive s = true ->
  run (mkSys st s ws) (repeat (CSess i) (S (length ks))) =
    mkSys st (mkSession PStream (rxid s) (sent s ++ snap_frames r ks) (log s) true) ws.
Proof.
  revert s. induction ks as [|key ks IH]; intros [ph id snt lg al] Hr Hp Ha;
    simpl in Hp, Ha; subst ph al.
  - simpl. rewrite app_nil_r. reflexivity.
  - change (repeat (CSess i) (S (length (key :: ks))))
      with (CSess i :: repeat (CSess i) (S (length ks))).
    rewrite run_cons. simpl sys_step. unfold session_step. simpl phase. rewrite Hr.
    simpl snap_frames. unfold per_key_frames.
    destruct (unwrap_or (redis_get r key) None) as [v|] eqn:E; simpl peer_alive;
      cbv beta iota.
    + rewrite IH; [|exact Hr|reflexivity|reflexivity].
      simpl. rewrite <- app_assoc. reflexivity.
    + rewrite IH; [|exact Hr|reflexivity|reflexivity]. reflexivity.
Qed.

Lemma connect_run (r : Redis) (st : AppState) (s : Session) (ws : list Writer) (i : SessInput) :
  redis st = Some r -> phase s = PStart -> peer_alive s = true ->
  run (mkSys st s ws) (repeat (CSess i) (S (S (S (length (snapshot_keys r)))))) =
    mkSys (mkState (Some r) (presence_tx st ++ [Some rx_empty]))
          (mkSession PStream (length (presence_tx st))
                     (sent s ++ snap_frames r (snapshot_keys r)) (log s) true) ws.
Proof.
  intros Hr Hp Ha. destruct st as [red bus]; simpl in Hr; subst red.
  destruct s as [ph id snt lg al]; simpl in Hp, Ha; subst ph al.
  change (repeat (CSess i) (S (S (S (length (snapshot_keys r))))))
    with (CSess i :: CSess i :: repeat (CSess i) (S (length (snapshot_keys r)))).
  rewrite !run_cons. simpl sys_step.
  apply (snapshot_loop_run r (snapshot_keys r)
           (mkState (Some r) (bus ++ [Some rx_empty]))
           (mkSession (PSnap (snapshot_keys r)) (length bus) snt lg true) ws i);
    reflexivity.
Qed.

Lemma snap_frames_elem (r : Redis) (ks : list string) (key v : string) :
  key ∈ ks -> redis_get r key = ROk (Some v) ->
  MText (mkEvent (trim_start_matches key PRESENCE_PREFIX) v) ∈ snap_frames r ks.
Proof.
  intros Hin Hg. induction ks as [|k ks IH]; [apply not_elem_of_nil in Hin; contradiction|].
  simpl. apply elem_of_app. apply elem_of_cons in Hin as [-> | Hin].
  - left. unfold per_key_frames. rewrite Hg. left.
  - right. exact (IH Hin).
Qed.

Lemma key_in_snapshot_keys (r : Redis) (u : string) (v : string * nat) :
  keys_err r = false -> kv r !! presence_key u = Some v ->
  presence_key u ∈ snapshot_keys r.
Proof.
  intros Hk Hl. unfold snapshot_keys, redis_keys. rewrite Hk. simpl.
  apply list_elem_of_filter. split.
  - unfold key_matches, presence_key. rewrite strip_prefix_append. reflexivity.
  - apply list_elem_of_fmap. exists (presence_key u, v). split; [reflexivity|].
    apply elem_of_map_to_list. exact Hl.
Qed.

(* ------------------------------------------------------------------ *)
(** ** The snapshot *)

(** The request and connection used for the snapshot theorems. *)
Definition fresh_session : Session := mkSession PStart 0 [] [] true.

Definition connect_sched (r : Redis) : list Choice :=
  repeat (CSess IBus) (S (S (S (length (snapshot_keys r))))).

(** C6 (code defect): the snapshot reconstructs user ids with
    [trim_start_matches], which strips "presence:" repeatedly.  After
    user "presence:x" goes online, with no key for user "x", the snapshot
    sends exactly one frame, and it is an event for the absent user "x". *)
Lemma C6_prefixed_user_mislabelled :
  let st1 := snd (set_presence (mkState (Some redis_empty) [])
                    (req_of "presence:x"%string "online"%string None)) in
  let r1 := set_kv redis_empty (<[presence_key "presence:x"%string :=
                                   ("online"%string, PRESENCE_TTL_SECS)]> ∅) in
  redis st1 = Some r1 /\
  kv r1 !! presence_key "x"%string = None /\
  sent (sess (run (mkSys st1 fresh_session []) (connect_sched r1))) =
    [MText (mkEvent "x"%string "online"%string)].
Proof. vm_compute. split; [reflexivity|split; reflexivity]. Qed.

(** C10: writing presence for [u] and then connecting a stream yields a
    snapshot event for [u]'s key whose user id is [u] itself when [u]
    does not begin with "presence:", and differs from [u] when it does. *)
Theorem C10_snapshot_user_id_roundtrip (st : AppState) (r : Redis) (tok u p : string)
    (m : option string) :
  redis st = Some r ->
  failing r (presence_key u) = false ->
  keys_err r = false ->
  String.eqb p "offline"%string = false ->
  let st1 := snd (set_presence st (mkSetReq tok u p m)) in
  let r1 := set_kv r (<[presence_key u := (p, PRESENCE_TTL_SECS)]> (kv r)) in
  let frames := sent (sess (run (mkSys st1 fresh_session []) (connect_sched r1))) in
  redis st1 = Some r1 /\
  (strip_prefix PRESENCE_PREFIX u = None -> MText (mkEvent u p) ∈ frames) /\
  (forall w, strip_prefix PRESENCE_PREFIX u = Some w ->
     MText (mkEvent (trim_start_matches (presence_key u) PRESENCE_PREFIX) p) ∈ frames /\
     trim_start_matches (presence_key u) PRESENCE_PREFIX <> u).
Proof.
  intros Hr Hf Hk Hoff st1 r1 frames.
  assert (Hst1 : redis st1 = Some r1).
  { unfold st1. rewrite (set_presence_success st r (mkSetReq tok u p m) Hr Hf). simpl.
    unfold r1, written_kv. simpl. rewrite Hoff. reflexivity. }
  assert (Hlk : kv r1 !! presence_key u = Some (p, PRESENCE_TTL_SECS))
    by apply lookup_insert_eq.
  assert (Hin : presence_key u ∈ snapshot_keys r1)
    by (apply (key_in_snapshot_keys r1 u (p, PRESENCE_TTL_SECS)); assumption).
  assert (Hg : redis_get r1 (presence_key u) = ROk (Some p)).
  { unfold redis_get. change (failing r1 (presence_key u)) with (failing r (presence_key u)).
    rewrite Hf, Hlk. reflexivity. }
  assert (Hfr : frames = snap_frames r1 (snapshot_keys r1)).
  { unfold frames, connect_sched, fresh_session.
    rewrite (connect_run r1 st1 (mkSession PStart 0 [] [] true) [] IBus Hst1 eq_refl eq_refl).
    reflexivity. }
  pose proof (snap_frames_elem r1 (snapshot_keys r1) (presence_key u) p Hin Hg) as Hm.
  rewrite <- Hfr in Hm.
  split; [exact Hst1|split].
  - intros Hn. rewrite trim_presence_key_plain in Hm by exact Hn. exact Hm.
  - intros w Hw. split; [exact Hm|]. exact (trim_presence_key_prefixed u w Hw).
Qed.

Lemma C10_snapshot_user_id_roundtrip_witness :
  MText (mkEvent "@gina:agora"%string "online"%string) ∈
    sent (sess (run (mkSys (snd (set_presence st_one_sub
                                   (mkSetReq "token"%string "@gina:agora"%string
                                             "online"%string None)))
                           fresh_session [])
                    (connect_sched (set_kv redis_empty
                       (<[presence_key "@gina:agora"%string :=
                           ("online"%string, PRESENCE_TTL_SECS)]> (kv redis_empty)))))).
Proof.
  apply (proj1 (proj2 (C10_snapshot_user_id_roundtrip st_one_sub redis_empty "token"%string
                         "@gina:agora"%string "online"%string None
                         eq_refl eq_refl eq_refl eq_refl))).
  reflexivity.
Defined.

(* ------------------------------------------------------------------ *)
(** ** Receivers under load *)

Definition push_all (evs : list PresenceEvent) (rx : Rx) : Rx :=
  fold_left (fun rx e => rx_push e rx) evs rx.

(** The publish part of successive [set_presence] calls. *)
Definition publish_all (reqs : list SetPresenceRequest) (st : AppState) : AppState :=
  fold_left (fun st req => snd (set_presence_publish st req)) reqs st.

Lemma push_all_spec (evs : list PresenceEvent) (rx : Rx) :
  length (buf rx) <= PRESENCE_CHANNEL_CAPACITY ->
  push_all evs rx =
    mkRx (drop (length (buf rx ++ evs) - PRESENCE_CHANNEL_CAPACITY) (buf rx ++ evs))
         (lag rx + (length (buf rx ++ evs) - PRESENCE_CHANNEL_CAPACITY)).
Proof.
  revert rx. induction evs as [|e evs IH]; intros [b n] Hb; simpl in Hb.
  - simpl. rewrite app_nil_r.
    replace (length b - PRESENCE_CHANNEL_CAPACITY) with 0 by lia.
    rewrite Nat.add_0_r. reflexivity.
  - change (push_all (e :: evs) (mkRx b n)) with (push_all evs (rx_push e (mkRx b n))).
    unfold rx_push at 1. cbv zeta. simpl buf. simpl lag.
    destruct (decide (PRESENCE_CHANNEL_CAPACITY < length (b ++ [e]))) as [Hlt|Hge].
    + rewrite length_app in Hlt. simpl in Hlt.
      assert (Hc : length b = PRESENCE_CHANNEL_CAPACITY) by lia.
      rewrite IH.
      2:{ simpl. destruct b as [|x b]; [unfold PRESENCE_CHANNEL_CAPACITY in Hc; discriminate|].
          simpl. rewrite length_app. simpl in Hc |- *. lia. }
      simpl buf. simpl lag.
      assert (E : tail (b ++ [e]) ++ evs = drop 1 (b ++ e :: evs)).
      { destruct b as [|x b]; [unfold PRESENCE_CHANNEL_CAPACITY in Hc; discriminate|].
        simpl. rewrite <- app_assoc. reflexivity. }
      rewrite E, drop_drop, length_drop.
      rewrite length_app. simpl.
      f_equal; [f_equal|]; lia.
    + rewrite length_app in Hge. simpl in Hge.
      rewrite IH by (simpl; rewrite length_app; simpl; lia).
      simpl buf. simpl lag. rewrite <- app_assoc. reflexivity.
Qed.

Lemma receiver_count_pos (bus : Bus) (i : nat) (rx : Rx) :
  bus !! i = Some (Some rx) -> receiver_count bus <> 0.
Proof.
  intros Hi H0. unfold receiver_count in H0. apply length_zero_iff_nil in H0.
  assert (Hin : Some rx ∈ filter (fun o => is_Some o) bus).
  { apply list_elem_of_filter. split; [eexists; reflexivity|].
    exact (list_elem_of_lookup_2 _ _ _ Hi). }
  rewrite H0 in Hin. apply not_elem_of_nil in Hin. exact Hin.
Qed.

Lemma publish_lookup (st : AppState) (req : SetPresenceRequest) (i : nat) (rx : Rx) :
  presence_tx st !! i = Some (Some rx) ->
  redis (snd (set_presence_publish st req)) = redis st /\
  presence_tx (snd (set_presence_publish st req)) !! i = Some (Some (rx_push (req_event req) rx)).
Proof.
  intros Hi. unfold set_presence_publish, broadcast_send.
  pose proof (receiver_count_pos _ _ _ Hi) as Hc.
  destruct (receiver_count (presence_tx st)) as [|n]; [contradiction|].
  simpl. split; [reflexivity|].
  rewrite list_lookup_fmap, Hi. reflexivity.
Qed.

Lemma publish_all_lookup (reqs : list SetPresenceRequest) (st : AppState) (i : nat) (rx : Rx) :
  presence_tx st !! i = Some (Some rx) ->
  redis (publish_all reqs st) = redis st /\
  presence_tx (publish_all reqs st) !! i = Some (Some (push_all (req_event <$> reqs) rx)).
Proof.
  revert st rx. induction reqs as [|req reqs IH]; intros st rx Hi; simpl.
  - split; [reflexivity|exact Hi].
  - destruct (publish_lookup st req i rx Hi) as [Hr Hl].
    destruct (IH _ _ Hl) as [Hr' Hl'].
    split; [rewrite Hr', Hr; reflexivity|exact Hl'].
Qed.

(** A streaming session reads its buffered events in order, one per
    step, and writes each one to the socket. *)
Lemma drain_run (b : list PresenceEvent) (st : AppState) (s : Session) (ws : list Writer) :
  phase s = PStream -> peer_alive s = true ->
  presence_tx st !! rxid s = Some (Some (mkRx b 0)) ->
  run (mkSys st s ws) (repeat (CSess IBus) (length b)) =
    mkSys (mkState (redis st) (<[rxid s := Some (mkRx [] 0)]> (presence_tx st)))
          (mkSession PStream (rxid s) (sent s ++ (MText <$> b)) (log s) true) ws.
Proof.
  revert st s. induction b as [|e b IH]; intros [red bus] [ph id snt lg al] Hp Ha Hi;
    simpl in Hp, Ha, Hi; subst ph al.
  - simpl. rewrite (list_insert_id _ _ _ Hi), app_nil_r. reflexivity.
  - change (repeat (CSess IBus) (length (e :: b)))
      with (CSess IBus :: repeat (CSess IBus) (length b)).
    rewrite run_cons.
    cbn [sys_step session_step phase rxid presence_tx app sess writers sent log peer_alive].
    rewrite Hi. cbn [rx_recv buf lag push_sent phase rxid sent log peer_alive redis presence_tx].
    rewrite IH; [|reflexivity|reflexivity|].
    + cbn [redis presence_tx sent rxid log].
      rewrite list_insert_insert_eq. unfold push_sent. cbn [sent].
      rewrite <- app_assoc. reflexivity.
    + cbn [presence_tx rxid]. apply list_lookup_insert_eq. exact (lookup_lt_Some _ _ _ Hi).
Qed.

(** A reported lag only logs its count: the session keeps streaming with
    the same socket, whatever the state of the peer, and resumes at the
    oldest event still buffered. *)
Lemma lagged_step (st : AppState) (s : Session) (ws : list Writer) (b : list PresenceEvent) (n : nat) :
  phase s = PStream -> 0 < n ->
  presence_tx st !! rxid s = Some (Some (mkRx b n)) ->
  sys_step (mkSys st s ws) (CSess IBus) =
    mkSys (mkState (redis st) (<[rxid s := Some (mkRx b 0)]> (presence_tx st)))
          (mkSession PStream (rxid s) (sent s) (log s ++ [n]) (peer_alive s)) ws.
Proof.
  intros Hp Hn Hi. destruct s as [ph id snt lg al]; simpl in Hp, Hi; subst ph.
  destruct n as [|n']; [lia|].
  cbn [sys_step session_step phase rxid sent log peer_alive app sess writers].
  rewrite Hi. reflexivity.
Qed.

(* ------------------------------------------------------------------ *)
(** ** Lagged subscribers *)

(** C7: a session stalled while more events than the channel capacity
    are published is not terminated by the lag: it logs the number of
    dropped events (the oldest ones), goes on streaming, delivers every
    event published after the gap, and keeps receiving later events. *)
Theorem C7_lag_keeps_session (st : AppState) (s : Session) (ws : list Writer)
    (reqs : list SetPresenceRequest) :
  phase s = PStream -> peer_alive s = true ->
  presence_tx st !! rxid s = Some (Some rx_empty) ->
  PRESENCE_CHANNEL_CAPACITY < length reqs ->
  let dropped := length reqs - PRESENCE_CHANNEL_CAPACITY in
  let sys2 := run (mkSys (publish_all reqs st) s ws)
                  (repeat (CSess IBus) (S PRESENCE_CHANNEL_CAPACITY)) in
  phase (sess sys2) = PStream /\
  log (sess sys2) = log s ++ [dropped] /\
  sent (sess sys2) = sent s ++ (MText <$> drop dropped (req_event <$> reqs)) /\
  (forall req : SetPresenceRequest,
     let sys3 := run (mkSys (snd (set_presence_publish (app sys2) req)) (sess sys2) (writers sys2))
                     [CSess IBus] in
     phase (sess sys3) = PStream /\ sent (sess sys3) = sent (sess sys2) ++ [MText (req_event req)]).
Proof.
  intros Hp Ha Hi Hn dropped sys2.
  destruct (publish_all_lookup reqs st (rxid s) rx_empty Hi) as [Hr Hl].
  rewrite push_all_spec in Hl by (simpl; lia).
  cbn [buf lag rx_empty] in Hl. rewrite app_nil_l, length_fmap, Nat.add_0_l in Hl.
  change (length reqs - PRESENCE_CHANNEL_CAPACITY) with dropped in Hl.
  set (evs := req_event <$> reqs) in *.
  assert (Hlen : length (drop dropped evs) = PRESENCE_CHANNEL_CAPACITY).
  { rewrite length_drop. unfold evs, dropped. rewrite length_fmap. lia. }
  assert (Hpos : 0 < dropped) by (unfold dropped; lia).
  assert (Hsched : repeat (CSess IBus) (S PRESENCE_CHANNEL_CAPACITY) =
                   CSess IBus :: repeat (CSess IBus) (length (drop dropped evs)))
    by (rewrite Hlen; reflexivity).
  unfold sys2. clearbody evs dropped. rewrite Hsched, run_cons.
  rewrite (lagged_step _ _ _ _ _ Hp Hpos Hl).
  assert (Hi1 : presence_tx (mkState (redis (publish_all reqs st))
                  (<[rxid s := Some (mkRx (drop dropped evs) 0)]> (presence_tx (publish_all reqs st))))
                !! rxid (mkSession PStream (rxid s) (sent s) (log s ++ [dropped]) (peer_alive s))
                = Some (Some (mkRx (drop dropped evs) 0))).
  { cbn [presence_tx rxid]. apply list_lookup_insert_eq. exact (lookup_lt_Some _ _ _ Hl). }
  rewrite (drain_run (drop dropped evs)
             (mkState (redis (publish_all reqs st))
                (<[rxid s := Some (mkRx (drop dropped evs) 0)]> (presence_tx (publish_all reqs st))))
             (mkSession PStream (rxid s) (sent s) (log s ++ [dropped]) (peer_alive s))
             ws eq_refl Ha Hi1).
  rewrite Ha.
  cbn [sess app writers phase log sent rxid redis presence_tx].
  split; [reflexivity|]. split; [reflexivity|]. split; [reflexivity|].
  intros req.
  set (bus2 := <[rxid s := Some (mkRx [] 0)]>
                 (<[rxid s := Some (mkRx (drop dropped evs) 0)]> (presence_tx (publish_all reqs st)))).
  assert (Hi2 : bus2 !! rxid s = Some (Some (mkRx [] 0))).
  { unfold bus2. apply list_lookup_insert_eq. rewrite length_insert.
    exact (lookup_lt_Some _ _ _ Hl). }
  destruct (publish_lookup (mkState (redis (publish_all reqs st)) bus2) req (rxid s) _ Hi2)
    as [_ Hi3].
  change (rx_push (req_event req) (mkRx [] 0)) with (mkRx [req_event req] 0) in Hi3.
  rewrite (drain_run [req_event req] _
             (mkSession PStream (rxid s) (sent s ++ (MText <$> drop dropped evs))
                        (log s ++ [dropped]) true) ws eq_refl eq_refl Hi3).
  cbn [sess phase sent]. split; [reflexivity|]. reflexivity.
Qed.

Definition streaming_session : Session := mkSession PStream 0 [] [] true.

Lemma C7_lag_keeps_session_witness :
  phase (sess (run (mkSys (publish_all (repeat (req_of "@hal:agora"%string "online"%string None) 65)
                                       st_one_sub)
                          streaming_session [])
                   (repeat (CSess IBus) (S PRESENCE_CHANNEL_CAPACITY)))) = PStream.
Proof.
  exact (proj1 (C7_lag_keeps_session st_one_sub streaming_session []
                  (repeat (req_of "@hal:agora"%string "online"%string None) 65)
                  eq_refl eq_refl eq_refl ltac:(unfold PRESENCE_CHANNEL_CAPACITY; simpl; lia))).
Defined.

(* ------------------------------------------------------------------ *)
(** ** Subscribe before snapshot: helpers *)

(** The event [e] reached the session: it was written to its socket or
    waits in its subscription. *)
Definition observed (e : PresenceEvent) (sys : Sys) : Prop :=
  MText e ∈ sent (sess sys) \/
  exists rx, presence_tx (app sys) !! rxid (sess sys) = Some (Some rx) /\ e ∈ buf rx.

(** The session's subscription dropped events at some point. *)
Definition lost (sys : Sys) : Prop :=
  log (sess sys) <> [] \/
  exists rx, presence_tx (app sys) !! rxid (sess sys) = Some (Some rx) /\ 0 < lag rx.

Definition writer_pc (i : nat) (sys : Sys) : option WPc := wpc <$> writers sys !! i.

Lemma presence_key_inj (u1 u2 : string) : presence_key u1 = presence_key u2 -> u1 = u2.
Proof.
  intros H. pose proof (strip_prefix_append PRESENCE_PREFIX u1) as H1.
  unfold presence_key in H. rewrite H, strip_prefix_append in H1. congruence.
Qed.

Lemma written_kv_lookup_ne (r : Redis) (req : SetPresenceRequest) (k : string) :
  k <> presence_key (req_user_id req) -> written_kv r req !! k = kv r !! k.
Proof.
  intros Hne. unfold written_kv. destruct (String.eqb _ _).
  - apply lookup_delete_ne. congruence.
  - apply lookup_insert_ne. congruence.
Qed.

Lemma set_presence_write_inr (st st' : AppState) (req : SetPresenceRequest) :
  set_presence_write st req = inr st' ->
  exists r, redis st = Some r /\ failing r (presence_key (req_user_id req)) = false /\
    st' = mkState (Some (set_kv r (written_kv r req))) (presence_tx st).
Proof.
  unfold set_presence_write. destruct (redis st) as [r|]; [|discriminate].
  destruct (failing r (presence_key (req_user_id req))) eqn:Hf.
  - rewrite presence_store_op_err by exact Hf. discriminate.
  - rewrite presence_store_op_ok by exact Hf. intros H. injection H as <-. eauto.
Qed.

Lemma set_presence_write_inl_redis (st : AppState) (req : SetPresenceRequest) (c : StatusCode) :
  set_presence_write st req = inl c -> c <> OK.
Proof.
  unfold set_presence_write. destruct (redis st) as [r|]; [|intros H; injection H as <-; discriminate].
  destruct (presence_store_op r req); [discriminate|]. intros H; injection H as <-; discriminate.
Qed.

Lemma publish_redis (st : AppState) (req : SetPresenceRequest) :
  redis (snd (set_presence_publish st req)) = redis st.
Proof. unfold set_presence_publish. destruct (broadcast_send _ _); reflexivity. Qed.

Lemma publish_code (st : AppState) (req : SetPresenceRequest) :
  fst (set_presence_publish st req) = OK.
Proof. unfold set_presence_publish. destruct (broadcast_send _ _); reflexivity. Qed.

Lemma rx_push_new (e : PresenceEvent) (rx : Rx) : e ∈ buf (rx_push e rx).
Proof.
  destruct rx as [b n]. unfold rx_push. cbn [buf lag].
  destruct (decide _) as [Hlt|Hge]; cbn [buf].
  - destruct b as [|x b]; [unfold PRESENCE_CHANNEL_CAPACITY in Hlt; simpl in Hlt; lia|].
    simpl. apply elem_of_app. right. apply list_elem_of_singleton. reflexivity.
  - apply elem_of_app. right. apply list_elem_of_singleton. reflexivity.
Qed.

Lemma rx_push_old (x e : PresenceEvent) (rx : Rx) :
  x ∈ buf rx -> x ∈ buf (rx_push e rx) \/ 0 < lag (rx_push e rx).
Proof.
  intros Hx. destruct rx as [b n]. unfold rx_push. cbn [buf lag] in *.
  destruct (decide _); cbn [buf lag].
  - right. lia.
  - left. apply elem_of_app. left. exact Hx.
Qed.

Lemma rx_push_lag (e : PresenceEvent) (rx : Rx) : lag rx <= lag (rx_push e rx).
Proof. destruct rx as [b n]. unfold rx_push. cbn [buf lag]. destruct (decide _); simpl; lia. Qed.

Lemma session_step_redis (i : SessInput) (s : Session) (st : AppState) :
  redis (snd (session_step i s st)) = redis st.
Proof.
  unfold session_step, close, broadcast_subscribe.
  repeat case_match; simpl; congruence.
Qed.

(* ------------------------------------------------------------------ *)
(** ** Subscribe before snapshot: the invariant *)

Section SubscribeFirst.

(** The writer of interest sits at index [iD] and sends [reqD]: a
    non-offline presence for a user id without the key prefix. *)
Variable iD : nat.
Variable reqD : SetPresenceRequest.
Hypothesis HDoff : String.eqb (req_presence reqD) "offline"%string = false.
Hypothesis HDplain : strip_prefix PRESENCE_PREFIX (req_user_id reqD) = None.

Local Abbreviation keyD := (presence_key (req_user_id reqD)).
Local Abbreviation evD := (req_event reqD).

(** Commands on D's key and the KEYS scan succeed. *)
Definition inv_static (sys : Sys) : Prop :=
  forall r, redis (app sys) = Some r -> failing r keyD = false /\ keys_err r = false.

(** Writer [iD] sends [reqD]; every other writer is for another user. *)
Definition inv_writers (sys : Sys) : Prop :=
  (exists w, writers sys !! iD = Some w /\ wreq w = reqD) /\
  (forall j w, j <> iD -> writers sys !! j = Some w -> req_user_id (wreq w) <> req_user_id reqD).

(** Once D's write is done, the store holds D's value. *)
Definition inv_store (sys : Sys) : Prop :=
  writer_pc iD sys = Some WPub \/ writer_pc iD sys = Some (WDone OK) ->
  exists r t, redis (app sys) = Some r /\ kv r !! keyD = Some (req_presence reqD, t).

(** Once D's event is published and the session subscribed, the event
    has reached the session, or the subscription lagged, or the session
    closed, or the snapshot has still to read D's key. *)
Definition inv_seen (sys : Sys) : Prop :=
  writer_pc iD sys = Some (WDone OK) -> phase (sess sys) <> PStart ->
  observed evD sys \/ lost sys \/ phase (sess sys) = PClosed \/ phase (sess sys) = PScan \/
  exists ks, phase (sess sys) = PSnap ks /\ keyD ∈ ks.

(** A subscribed, open session owns a live receiver. *)
Definition inv_rx (sys : Sys) : Prop :=
  phase (sess sys) <> PStart -> phase (sess sys) <> PClosed ->
  exists rx, presence_tx (app sys) !! rxid (sess sys) = Some (Some rx).

Definition inv (sys : Sys) : Prop :=
  inv_static sys /\ inv_writers sys /\ inv_store sys /\ inv_seen sys /\ inv_rx sys.

Lemma get_keyD (sys : Sys) (r : Redis) (t : nat) :
  inv_static sys -> redis (app sys) = Some r -> kv r !! keyD = Some (req_presence reqD, t) ->
  redis_get r keyD = ROk (Some (req_presence reqD)).
Proof.
  intros Hs Hr Hk. destruct (Hs r Hr) as [Hf _].
  unfold redis_get. rewrite Hf, Hk. reflexivity.
Qed.

Ltac inv_simpl :=
  unfold inv_seen, inv_rx, inv_store, inv_static, observed, lost, writer_pc in *;
  cbn [app sess writers phase rxid sent log peer_alive presence_tx redis
       set_phase push_sent close] in *.

Ltac same_state := inv_simpl; split; assumption.

Ltac closed_state :=
  inv_simpl; split;
  [intros _ _; right; right; left; reflexivity | intros _ Hc; exfalso; apply Hc; reflexivity].

Lemma seen_rx_session_step (st : AppState) (s : Session) (ws : list Writer) (i : SessInput) :
  inv_static (mkSys st s ws) -> inv_store (mkSys st s ws) ->
  inv_seen (mkSys st s ws) -> inv_rx (mkSys st s ws) ->
  inv_seen (sys_step (mkSys st s ws) (CSess i)) /\ inv_rx (sys_step (mkSys st s ws) (CSess i)).
Proof.
  intros Hs Hst Hseen Hrx.
  destruct st as [red bus]. destruct s as [ph id snt lg al].
  unfold sys_step, session_step. cbn [sess app phase redis presence_tx rxid peer_alive].
  destruct ph as [| |[|k ks]| |].
  - (* subscribe *)
    unfold broadcast_subscribe. inv_simpl. split.
    + intros Hdone _. destruct (Hst (or_intror Hdone)) as (r & t & -> & _).
      right; right; right; left; reflexivity.
    + intros _ _. exists rx_empty. apply list_lookup_middle. reflexivity.
  - (* KEYS *)
    destruct red as [r|]; inv_simpl; split.
    + intros Hdone _. destruct (Hst (or_intror Hdone)) as (r' & t & Hr & Hk).
      injection Hr as <-. right; right; right; right. eexists; split; [reflexivity|].
      apply (key_in_snapshot_keys r _ (req_presence reqD, t)); [|exact Hk].
      apply (Hs r eq_refl).
    + intros _ _. apply Hrx; discriminate.
    + intros Hdone _. destruct (Hst (or_intror Hdone)) as (r' & t & Hr & _). discriminate.
    + intros _ _. apply Hrx; discriminate.
  - (* end of the snapshot loop *)
    inv_simpl. split.
    + intros Hdone _.
      destruct (Hseen Hdone ltac:(discriminate)) as [Ho | [Hl | [Hc | [Hc | (ks & Hc & Hin)]]]].
      * left. exact Ho.
      * right; left. exact Hl.
      * discriminate.
      * discriminate.
      * injection Hc as <-. apply not_elem_of_nil in Hin. contradiction.
    + intros _ _. apply Hrx; discriminate.
  - (* one snapshot key *)
    destruct red as [r|].
    2:{ inv_simpl. split.
        - intros Hdone _. destruct (Hst (or_intror Hdone)) as (r' & t & Hr & _). discriminate.
        - intros _ _. apply Hrx; discriminate. }
    destruct (unwrap_or (redis_get r k) None) as [v|] eqn:Eg.
    + destruct al; [|closed_state].
      inv_simpl. split.
      * intros Hdone _.
        destruct (Hseen Hdone ltac:(discriminate))
          as [[Ho|Ho] | [[Hl|Hl] | [Hc | [Hc | (ks' & Hc & Hin)]]]].
        -- left; left. apply elem_of_app; left; exact Ho.
        -- left; right. exact Ho.
        -- right; left; left. exact Hl.
        -- right; left; right. exact Hl.
        -- discriminate.
        -- discriminate.
        -- injection Hc as <-. apply elem_of_cons in Hin as [Hk | Hin].
           ++ subst k. destruct (Hst (or_intror Hdone)) as (r' & t & Hr & Hkv).
              injection Hr as <-. destruct (Hs r eq_refl) as [Hf _].
              unfold redis_get in Eg. rewrite Hf, Hkv in Eg. simpl in Eg. injection Eg as <-.
              left; left. apply elem_of_app; right.
              rewrite trim_presence_key_plain by exact HDplain.
              apply list_elem_of_singleton. reflexivity.
           ++ right; right; right; right. exists ks. split; [reflexivity|exact Hin].
      * intros _ _. apply Hrx; discriminate.
    + inv_simpl. split.
      * intros Hdone _.
        destruct (Hseen Hdone ltac:(discriminate))
          as [Ho | [Hl | [Hc | [Hc | (ks' & Hc & Hin)]]]].
        -- left. exact Ho.
        -- right; left. exact Hl.
        -- discriminate.
        -- discriminate.
        -- injection Hc as <-. apply elem_of_cons in Hin as [Hk | Hin].
           ++ subst k. destruct (Hst (or_intror Hdone)) as (r' & t & Hr & Hkv).
              injection Hr as <-. destruct (Hs r eq_refl) as [Hf _].
              unfold redis_get in Eg. rewrite Hf, Hkv in Eg. discriminate.
           ++ right; right; right; right. exists ks. split; [reflexivity|exact Hin].
      * intros _ _. apply Hrx; discriminate.
  - (* streaming *)
    destruct i as [|[[|d|d|str|d]| |]]; try same_state; try closed_state.
    + (* a bus event *)
      destruct (bus !! id) as [[[b n]|]|] eqn:El; try same_state.
      destruct n as [|n'].
      * destruct b as [|e b]; [same_state|].
        destruct al; [|closed_state].
        inv_simpl. split.
        -- intros Hdone _.
           destruct (Hseen Hdone ltac:(discriminate))
             as [[Ho|(rx0 & Hl0 & Hin)] | [[Hl|(rx0 & Hl0 & Hlag)] | [Hc | [Hc | (ks' & Hc & _)]]]].
           ++ left; left. apply elem_of_app; left; exact Ho.
           ++ rewrite El in Hl0. injection Hl0 as <-. cbn [buf] in Hin.
              apply elem_of_cons in Hin as [He | Hin].
              ** left; left. apply elem_of_app; right. rewrite He.
                 apply list_elem_of_singleton. reflexivity.
              ** left; right. exists (mkRx b 0). split; [|exact Hin].
                 apply list_lookup_insert_eq. exact (lookup_lt_Some _ _ _ El).
           ++ right; left; left. exact Hl.
           ++ rewrite El in Hl0. injection Hl0 as <-. cbn [lag] in Hlag. lia.
           ++ discriminate.
           ++ discriminate.
           ++ discriminate.
        -- intros _ _. exists (mkRx b 0).
           apply list_lookup_insert_eq. exact (lookup_lt_Some _ _ _ El).
      * inv_simpl. split.
        -- intros _ _. right; left; left. intros H. apply app_eq_nil in H as [_ H]. discriminate.
        -- intros _ _. exists (mkRx b 0).
           apply list_lookup_insert_eq. exact (lookup_lt_Some _ _ _ El).
    + (* a ping *)
      destruct al; [|same_state].
      inv_simpl. split.
      * intros Hdone _.
        destruct (Hseen Hdone ltac:(discriminate))
          as [[Ho|Ho] | [Hl | [Hc | [Hc | (ks' & Hc & _)]]]].
        -- left; left. apply elem_of_app; left; exact Ho.
        -- left; right. exact Ho.
        -- right; left. exact Hl.
        -- discriminate.
        -- discriminate.
        -- discriminate.
      * intros _ _. apply Hrx; discriminate.
  - (* closed *)
    same_state.
Qed.

Lemma writer_step_req (w : Writer) (st : AppState) : wreq (fst (writer_step w st)) = wreq w.
Proof.
  destruct w as [rq pc]. unfold writer_step. cbn [wpc wreq].
  destruct pc; [destruct (set_presence_write st rq)| destruct (set_presence_publish st rq)|]; reflexivity.
Qed.

Lemma writers_insert (st st' : AppState) (s s' : Session) (ws : list Writer) (n : nat) (w w' : Writer) :
  inv_writers (mkSys st s ws) -> ws !! n = Some w -> wreq w' = wreq w ->
  inv_writers (mkSys st' s' (<[n := w']> ws)).
Proof.
  intros [(wD & HD & HDq) Ho] En Hq. cbn [writers] in HD, Ho. unfold inv_writers. cbn [writers]. split.
  - destruct (decide (n = iD)) as [Heq|Hne]; [subst n|].
    + exists w'. split; [apply list_lookup_insert_eq; exact (lookup_lt_Some _ _ _ En)|].
      rewrite En in HD. injection HD as ->. congruence.
    + exists wD. rewrite list_lookup_insert_ne by congruence. split; assumption.
  - intros j wj Hj Hl. destruct (decide (n = j)) as [->|Hne].
    + rewrite list_lookup_insert_eq in Hl by exact (lookup_lt_Some _ _ _ En).
      injection Hl as <-. rewrite Hq. exact (Ho j w Hj En).
    + rewrite list_lookup_insert_ne in Hl by exact Hne. exact (Ho j wj Hj Hl).
Qed.

Lemma writer_pc_insert_ne (st st' : AppState) (s s' : Session) (ws : list Writer) (n : nat) (w' : Writer) :
  n <> iD -> writer_pc iD (mkSys st' s' (<[n := w']> ws)) = writer_pc iD (mkSys st s ws).
Proof.
  intros Hne. unfold writer_pc. cbn [writers]. rewrite list_lookup_insert_ne by exact Hne.
  reflexivity.
Qed.

Lemma writer_pc_insert_eq (st st' : AppState) (s s' : Session) (ws : list Writer) (w w' : Writer) :
  ws !! iD = Some w -> writer_pc iD (mkSys st' s' (<[iD := w']> ws)) = Some (wpc w').
Proof.
  intros En. unfold writer_pc. cbn [writers].
  rewrite list_lookup_insert_eq by exact (lookup_lt_Some _ _ _ En). reflexivity.
Qed.

(** Publishing one more event keeps D's event observed or turns it into
    a lag, and keeps a lag. *)
Lemma seen_after_publish (st : AppState) (s : Session) (ws ws' : list Writer) (req : SetPresenceRequest) :
  (observed evD (mkSys st s ws) \/ lost (mkSys st s ws)) ->
  observed evD (mkSys (snd (set_presence_publish st req)) s ws') \/
  lost (mkSys (snd (set_presence_publish st req)) s ws').
Proof.
  unfold observed, lost. cbn [app sess].
  intros [[Ho | (rx & Hl & Hin)] | [Hl | (rx & Hl & Hlag)]].
  - left; left; exact Ho.
  - destruct (publish_lookup st req _ _ Hl) as [_ Hl'].
    destruct (rx_push_old _ (req_event req) _ Hin) as [Hin' | Hlag'].
    + left; right. exists (rx_push (req_event req) rx). split; assumption.
    + right; right. exists (rx_push (req_event req) rx). split; assumption.
  - right; left; exact Hl.
  - destruct (publish_lookup st req _ _ Hl) as [_ Hl'].
    right; right. exists (rx_push (req_event req) rx). split; [exact Hl'|].
    pose proof (rx_push_lag (req_event req) rx). lia.
Qed.

Lemma inv_writer_step (st : AppState) (s : Session) (ws : list Writer) (n : nat) :
  inv (mkSys st s ws) -> inv (sys_step (mkSys st s ws) (CWriter n)).
Proof.
  intros (Hs & Hw & Hst & Hseen & Hrx).
  unfold sys_step. cbn [writers app sess].
  destruct (ws !! n) as [w|] eqn:En; [|exact (conj Hs (conj Hw (conj Hst (conj Hseen Hrx))))].
  destruct (writer_step w st) as [w' st'] eqn:Ews.
  assert (Hq : wreq w' = wreq w)
    by (change w' with (fst (w', st')); rewrite <- Ews; apply writer_step_req).
  assert (Hw' : inv_writers (mkSys st' s (<[n := w']> ws)))
    by exact (writers_insert st st' s s ws n w w' Hw En Hq).
  destruct (decide (n = iD)) as [Heq|Hne]; [subst n|].
  - (* the writer of interest *)
    destruct Hw as [(wD & HD & HDq) _]. cbn [writers] in HD. rewrite En in HD. injection HD as <-.
    destruct w as [rq pc]. cbn [wreq] in HDq. subst rq.
    unfold inv, inv_store, inv_seen. rewrite (writer_pc_insert_eq st st' s s ws _ w' En).
    unfold writer_step in Ews. cbn [wpc wreq] in Ews.
    destruct pc.
    + destruct (set_presence_write st reqD) as [c|st1] eqn:Ew;
        injection Ews as <- <-; cbn [wpc].
      * pose proof (set_presence_write_inl_redis _ _ _ Ew) as Hc.
        split; [exact Hs|]. split; [exact Hw'|]. split; [|split].
        -- intros [H|H]; injection H; [discriminate|congruence].
        -- intros H. injection H. congruence.
        -- exact Hrx.
      * destruct (set_presence_write_inr _ _ _ Ew) as (r & Hr & Hf & ->).
        split; [|split; [exact Hw'|split; [|split]]].
        -- intros r0 Hr0. cbn [app redis] in Hr0. injection Hr0 as <-.
           exact (Hs r Hr).
        -- intros _. exists (set_kv r (written_kv r reqD)), PRESENCE_TTL_SECS.
           split; [reflexivity|]. cbn [kv set_kv].
           rewrite written_kv_lookup_key, HDoff. reflexivity.
        -- intros H. discriminate.
        -- exact Hrx.
    + destruct (set_presence_publish st reqD) as [c st1] eqn:Ep.
      injection Ews as <- <-. cbn [wpc].
      assert (Hc : c = OK) by (change c with (fst (c, st1)); rewrite <- Ep; apply publish_code).
      assert (Hr1 : redis st1 = redis st)
        by (change st1 with (snd (c, st1)); rewrite <- Ep; apply publish_redis).
      subst c.
      assert (Hpc : writer_pc iD (mkSys st s ws) = Some WPub)
        by (unfold writer_pc; cbn [writers]; rewrite En; reflexivity).
      assert (Hstore := Hst (or_introl Hpc)).
      split; [|split; [exact Hw'|split; [|split]]].
      * intros r0 Hr0. cbn [app] in Hr0. rewrite Hr1 in Hr0. exact (Hs r0 Hr0).
      * intros _. cbn [app]. rewrite Hr1. exact Hstore.
      * intros _ Hp. cbn [sess] in Hp |- *.
        assert (Hc : phase s = PClosed \/ phase s <> PClosed)
          by (destruct (phase s); (left; reflexivity) || (right; discriminate)).
        destruct Hc as [Hc|Hc]; [right; right; left; exact Hc|].
        destruct (Hrx Hp Hc) as [rx Hl]. cbn [app sess] in Hl.
        destruct (publish_lookup st reqD _ _ Hl) as [_ Hl'].
        rewrite Ep in Hl'. cbn [snd] in Hl'.
        left; right. exists (rx_push evD rx). split; [exact Hl'|apply rx_push_new].
      * intros Hp Hc. destruct (Hrx Hp Hc) as [rx Hl]. cbn [app sess] in Hl |- *.
        destruct (publish_lookup st reqD _ _ Hl) as [_ Hl'].
        rewrite Ep in Hl'. exists (rx_push evD rx). exact Hl'.
    + injection Ews as <- <-. rewrite (list_insert_id _ _ _ En).
      rewrite (list_insert_id _ _ _ En) in Hw'.
      assert (Hpc : writer_pc iD (mkSys st s ws) = Some (WDone code))
        by (unfold writer_pc; cbn [writers]; rewrite En; reflexivity).
      unfold inv_store, inv_seen in Hst, Hseen. rewrite Hpc in Hst, Hseen.
      split; [exact Hs|split; [exact Hw'|split; [exact Hst|split; [exact Hseen|exact Hrx]]]].
  - (* another writer *)
    pose proof (proj2 Hw n w Hne En) as Hu.
    assert (Hk : keyD <> presence_key (req_user_id (wreq w)))
      by (intros H; apply Hu; symmetry; apply presence_key_inj; exact H).
    unfold inv, inv_store, inv_seen.
    rewrite (writer_pc_insert_ne st st' s s ws n w' Hne).
    destruct w as [rq pc]. cbn [wreq] in Hk. unfold writer_step in Ews. cbn [wpc wreq] in Ews.
    destruct pc.
    + destruct (set_presence_write st rq) as [c|st1] eqn:Ew; injection Ews as <- <-.
      * split; [exact Hs|split; [exact Hw'|split; [exact Hst|split; [exact Hseen|exact Hrx]]]].
      * destruct (set_presence_write_inr _ _ _ Ew) as (r & Hr & Hf & ->).
        split; [|split; [exact Hw'|split; [|split]]].
        -- intros r0 Hr0. cbn [app redis] in Hr0. injection Hr0 as <-. exact (Hs r Hr).
        -- intros Hpc. destruct (Hst Hpc) as (r0 & t & Hr0 & Hkv). cbn [app] in Hr0.
           rewrite Hr in Hr0. injection Hr0 as <-.
           exists (set_kv r (written_kv r rq)), t. split; [reflexivity|].
           cbn [kv set_kv]. rewrite written_kv_lookup_ne by exact Hk. exact Hkv.
        -- exact Hseen.
        -- exact Hrx.
    + destruct (set_presence_publish st rq) as [c st1] eqn:Ep. injection Ews as <- <-.
      assert (Hr1 : redis st1 = redis st)
        by (change st1 with (snd (c, st1)); rewrite <- Ep; apply publish_redis).
      split; [|split; [exact Hw'|split; [|split]]].
      * intros r0 Hr0. cbn [app] in Hr0. rewrite Hr1 in Hr0. exact (Hs r0 Hr0).
      * intros Hpc. cbn [app]. rewrite Hr1. exact (Hst Hpc).
      * intros Hdone Hp. cbn [sess] in Hp |- *.
        destruct (Hseen Hdone Hp) as [Ho | [Hl | Hph]].
        -- pose proof (seen_after_publish st s ws ws rq (or_introl Ho)) as H.
           rewrite Ep in H. cbn [snd] in H. destruct H as [H|H]; [left|right; left]; exact H.
        -- pose proof (seen_after_publish st s ws ws rq (or_intror Hl)) as H.
           rewrite Ep in H. cbn [snd] in H. destruct H as [H|H]; [left|right; left]; exact H.
        -- right; right. exact Hph.
      * intros Hp Hc. destruct (Hrx Hp Hc) as [rx Hl]. cbn [app sess] in Hl |- *.
        destruct (publish_lookup st rq _ _ Hl) as [_ Hl'].
        rewrite Ep in Hl'. exists (rx_push (req_event rq) rx). exact Hl'.
    + injection Ews as <- <-. rewrite (list_insert_id _ _ _ En).
      rewrite (list_insert_id _ _ _ En) in Hw'.
      split; [exact Hs|split; [exact Hw'|split; [exact Hst|split; [exact Hseen|exact Hrx]]]].
Qed.

Lemma inv_session_step (st : AppState) (s : Session) (ws : list Writer) (i : SessInput) :
  inv (mkSys st s ws) -> inv (sys_step (mkSys st s ws) (CSess i)).
Proof.
  intros (Hs & Hw & Hst & Hseen & Hrx).
  destruct (seen_rx_session_step st s ws i Hs Hst Hseen Hrx) as [H1 H2].
  pose proof (session_step_redis i s st) as Hr.
  revert H1 H2. unfold sys_step. cbn [sess app writers].
  destruct (session_step i s st) as [s' st']. cbn [snd] in Hr. intros H1 H2.
  split; [|split; [exact Hw|split; [|split; [exact H1|exact H2]]]].
  - intros r0 Hr0. cbn [app] in Hr0. rewrite Hr in Hr0. exact (Hs r0 Hr0).
  - intros Hpc. cbn [app]. rewrite Hr. exact (Hst Hpc).
Qed.

Lemma inv_step (sys : Sys) (c : Choice) : inv sys -> inv (sys_step sys c).
Proof.
  destruct sys as [st s ws]. destruct c as [i|n].
  - apply inv_session_step.
  - apply inv_writer_step.
Qed.

Lemma inv_run (sched : list Choice) (sys : Sys) : inv sys -> inv (run sys sched).
Proof.
  revert sys. induction sched as [|c sched IH]; intros sys H.
  - exact H.
  - rewrite run_cons. apply IH. apply inv_step. exact H.
Qed.

Lemma inv_init (sys : Sys) :
  writers sys !! iD = Some (mkWriter reqD WStart) ->
  (forall j w, j <> iD -> writers sys !! j = Some w -> req_user_id (wreq w) <> req_user_id reqD) ->
  (forall r, redis (app sys) = Some r -> failing r keyD = false /\ keys_err r = false) ->
  phase (sess sys) = PStart ->
  inv sys.
Proof.
  intros HD Ho Hs Hp.
  assert (Hpc : writer_pc iD sys = Some WStart) by (unfold writer_pc; rewrite HD; reflexivity).
  split; [exact Hs|split; [split; [exists (mkWriter reqD WStart); split; [exact HD|reflexivity]|exact Ho]|]].
  split; [|split].
  - unfold inv_store. rewrite Hpc. intros [H|H]; discriminate.
  - unfold inv_seen. rewrite Hpc. intros H. discriminate.
  - intros H. contradiction.
Qed.

Lemma inv_observed (sys : Sys) :
  inv sys -> writer_pc iD sys = Some (WDone OK) -> phase (sess sys) = PStream ->
  log (sess sys) = [] ->
  (forall rx, presence_tx (app sys) !! rxid (sess sys) = Some (Some rx) -> lag rx = 0) ->
  observed evD sys.
Proof.
  intros (_ & _ & _ & Hseen & _) Hpc Hp Hlog Hlag.
  destruct (Hseen Hpc) as [Ho|[[Hl|(rx & Hl & Hlt)]|Hph]]; [rewrite Hp; discriminate| | | |].
  - exact Ho.
  - contradiction.
  - rewrite (Hlag rx Hl) in Hlt. lia.
  - rewrite Hp in Hph. destruct Hph as [H|[H|(ks & H & _)]]; discriminate.
Qed.

End SubscribeFirst.

(* ------------------------------------------------------------------ *)
(** ** Subscribe before snapshot: scenarios *)

Definition req_dana : SetPresenceRequest :=
  mkSetReq "token"%string "@dana:agora"%string "online"%string None.

Definition req_eve : SetPresenceRequest :=
  mkSetReq "token"%string "@eve:agora"%string "online"%string None.

(** Store empty, no subscriber yet; writer 0 sets dana online and 64
    more writers set eve online. *)
Definition burst_sys0 : Sys :=
  mkSys (mkState (Some redis_empty) []) fresh_session
        (mkWriter req_dana WStart :: repeat (mkWriter req_eve WStart) 64).

(** The session subscribes and scans the (empty) store; then dana's
    write and publish, then the 64 writes and publishes for eve, all
    while the session is still in its snapshot; then the session streams
    until its receiver is drained. *)
Definition burst_sched : list Choice :=
  [CSess IBus; CSess IBus; CWriter 0; CWriter 0] ++
  flat_map (fun j => [CWriter j; CWriter j]) (seq 1 64) ++ repeat (CSess IBus) 66.

(** Writer 0 sets dana online between the subscription and the scan. *)
Definition quiet_sys0 : Sys :=
  mkSys (mkState (Some redis_empty) []) fresh_session [mkWriter req_dana WStart].

Definition quiet_sched : list Choice :=
  [CSess IBus; CWriter 0; CWriter 0] ++ repeat (CSess IBus) 4.

Definition not_from (u : string) (m : Message) : bool :=
  match m with
  | MText e => negb (String.eqb (user_id e) u)
  | MPong _ => true
  end.

(** C5 (as stated; refuted): dana's change is stored and published
    after the session subscribed, yet the session never sees it.  The
    session's receiver holds 64 events; dana's is the oldest when eve's
    64 events arrive, so it is dropped and the session gets [Lagged 1].
    At the end the session streams, its receiver is drained, every writer
    is done, and none of the frames it sent is about dana. *)
Lemma C5_lagged_change_missed :
  writer_pc 0 (run burst_sys0 burst_sched) = Some (WDone OK) /\
  phase (sess (run burst_sys0 burst_sched)) = PStream /\
  log (sess (run burst_sys0 burst_sched)) = [1] /\
  presence_tx (app (run burst_sys0 burst_sched)) !! rxid (sess (run burst_sys0 burst_sched)) =
    Some (Some rx_empty) /\
  ~ observed (req_event req_dana) (run burst_sys0 burst_sched).
Proof.
  assert (Hb : forallb (not_from "@dana:agora"%string) (sent (sess (run burst_sys0 burst_sched))) = true)
    by (vm_compute; reflexivity).
  assert (Hl : presence_tx (app (run burst_sys0 burst_sched)) !! rxid (sess (run burst_sys0 burst_sched)) =
                 Some (Some rx_empty)) by (vm_compute; reflexivity).
  split; [vm_compute; reflexivity|].
  split; [vm_compute; reflexivity|].
  split; [vm_compute; reflexivity|].
  split; [exact Hl|].
  intros [Hs | (rx & Hrx & Hin)].
  - rewrite forallb_forall in Hb. apply list_elem_of_In in Hs.
    specialize (Hb _ Hs). vm_compute in Hb. discriminate Hb.
  - rewrite Hl in Hrx. injection Hrx as <-. apply not_elem_of_nil in Hin. exact Hin.
Qed.

(** C5 (amended): the session subscribes before it scans the store.  Take
    a session that has not started, a writer [iD] about to set a
    non-offline presence for D, whose id does not start with "presence:",
    and other writers for other users only; commands on D's key and the
    KEYS scan succeed.  In any interleaving after which D's request has
    answered OK and the session streams without its subscription ever
    having lagged, D's change has been observed: sent by the session (as a
    snapshot frame or a bus event) or still queued in its receiver. *)
Theorem C5_subscribe_first_observed (sys0 : Sys) (sched : list Choice) (iD : nat)
    (reqD : SetPresenceRequest) :
  String.eqb (req_presence reqD) "offline"%string = false ->
  strip_prefix PRESENCE_PREFIX (req_user_id reqD) = None ->
  writers sys0 !! iD = Some (mkWriter reqD WStart) ->
  (forall j w, j <> iD -> writers sys0 !! j = Some w -> req_user_id (wreq w) <> req_user_id reqD) ->
  (forall r, redis (app sys0) = Some r ->
     failing r (presence_key (req_user_id reqD)) = false /\ keys_err r = false) ->
  phase (sess sys0) = PStart ->
  writer_pc iD (run sys0 sched) = Some (WDone OK) ->
  phase (sess (run sys0 sched)) = PStream ->
  log (sess (run sys0 sched)) = [] ->
  (forall rx, presence_tx (app (run sys0 sched)) !! rxid (sess (run sys0 sched)) = Some (Some rx) ->
     lag rx = 0) ->
  observed (req_event reqD) (run sys0 sched).
Proof.
  intros Hoff Hplain HD Ho Hs Hp Hpc Hph Hlog Hlag.
  apply (inv_observed iD reqD); [|exact Hpc|exact Hph|exact Hlog|exact Hlag].
  apply (inv_run iD reqD Hoff Hplain). apply inv_init; assumption.
Qed.

Lemma C5_subscribe_first_observed_witness :
  observed (req_event req_dana) (run quiet_sys0 quiet_sched).
Proof.
  apply (C5_subscribe_first_observed quiet_sys0 quiet_sched 0 req_dana).
  - reflexivity.
  - reflexivity.
  - reflexivity.
  - intros [|j] w Hj Hw; [contradiction|]. destruct j; discriminate Hw.
  - intros r Hr. injection Hr as <-. split; reflexivity.
  - reflexivity.
  - vm_compute. reflexivity.
  - vm_compute. reflexivity.
  - vm_compute. reflexivity.
  - intros rx Hrx. vm_compute in Hrx. injection Hrx as <-. reflexivity.
Defined.

(* ================================================================== *)
(** * Profiles: [routes/users.rs] and [matrix/client.rs] *)

(** [s.replace(c, to)] for an ASCII character [c]: every occurrence of
    the byte [c] is replaced by [to] (in UTF-8 an ASCII byte never occurs
    inside a multi-byte character, so a byte-wise replace is exact). *)
Fixpoint str_replace (c : ascii) (to s : string) : string :=
  match s with
  | EmptyString => EmptyString
  | String a s' =>
      if Ascii.eqb a c then String.append to (str_replace c to s')
      else String a (str_replace c to s')
  end.

(** The byte [c] occurs in [s]. *)
Fixpoint str_has (c : ascii) (s : string) : bool :=
  match s with
  | EmptyString => false
  | String a s' => Ascii.eqb a c || str_has c s'
  end.

(** Percent-decoding of a URL path segment (RFC 3986): ["%XY"] with two
    hex digits becomes the byte [0xXY]; anything else is kept.  This is
    what the homeserver applies to the path; it is not part of this
    program. *)
Definition hex_val (c : ascii) : option nat :=
  let n := nat_of_ascii c in
  if (48 <=? n) && (n <=? 57) then Some (n - 48)
  else if (65 <=? n) && (n <=? 70) then Some (n - 55)
  else if (97 <=? n) && (n <=? 102) then Some (n - 87)
  else None.

Fixpoint percent_decode (s : string) : string :=
  match s with
  | EmptyString => EmptyString
  | String a t =>
      if Ascii.eqb a "%"%char then
        match t with
        | String x (String y rest) =>
            match hex_val x, hex_val y with
            | Some h, Some l => String (ascii_of_nat (16 * h + l)) (percent_decode rest)
            | _, _ => String a (percent_decode t)
            end
        | _ => String a (percent_decode t)
        end
      else String a (percent_decode t)
  end.

(** The minimal JSON values the code builds. *)
#[warnings="-register-all"]
Inductive JsonValue :=
| JString (s : string)
| JObject (fields : list (string * JsonValue)).

Inductive HttpMethod := GET | POST | PUT | DELETE.

#[global] Instance HttpMethod_eq_dec : EqDecision HttpMethod.
Proof. solve_decision. Defined.

(** A request sent with [reqwest]: method, URL, the [Authorization]
    header and the JSON body set with [.json(..)], if any. *)
Record HttpRequest := mkHttpReq {
  http_method : HttpMethod;
  http_url : string;
  http_authorization : string;
  http_json : option JsonValue
}.

(** [ProfileData] *)
Record ProfileData := mkProfileData {
  displayname : option string;
  avatar_url : option string
}.

(** [MatrixError]; the wrapped [reqwest] and [serde_json] errors carry
    nothing the code inspects. *)
Inductive MatrixError := Reqwest | NoSession | ApiError (err : string) | JsonError.

(** A homeserver response as the client reads it: the status, the body
    decoded by [response.json::<ProfileData>()] ([None] when reading or
    decoding fails) and the body read by [response.text()] ([None] when
    reading fails). *)
Record HttpResponse := mkHttpResp {
  http_status : nat;
  http_body_profile : option ProfileData;
  http_body_text : option string
}.

(** [status().is_success()] *)
Definition is_success (status : nat) : bool := (200 <=? status) && (status <=? 299).

(** The homeserver: the response to a request, [None] when [send()]
    fails. *)
Definition Homeserver : Type := HttpRequest -> option HttpResponse.

(** Code that talks to the homeserver: its result, and the requests it
    sent in order. *)
Definition HttpM (A : Type) : Type := Homeserver -> A * list HttpRequest.

#[global] Instance HttpM_ret : MRet HttpM := fun A a _ => (a, []).
#[global] Instance HttpM_bind : MBind HttpM := fun A B f m hs =>
  let '(a, t1) := m hs in let '(b, t2) := f a hs in (b, t1 ++ t2).

(** [client.<method>(&url)...send().await] *)
Definition http_send (req : HttpRequest) : HttpM (option HttpResponse) := fun hs => (hs req, [req]).

(** [Result<T, E>] *)
Inductive Result (T E : Type) := Ok (t : T) | Err (e : E).
Arguments Ok {T E} t.
Arguments Err {T E} e.

Module Client.

Record MatrixClient := mkMatrixClient {
  homeserver_url : string;
  access_token : option string;
  user_id : option string
}.

(** [MatrixClient::new] *)
Definition new (homeserver_url : string) : MatrixClient := mkMatrixClient homeserver_url None None.

(** [encode_matrix_id] *)
Definition encode_matrix_id (id : string) : string :=
  str_replace "}"%char "%7D"%string
  (str_replace "{"%char "%7B"%string
  (str_replace "&"%char "%26"%string
  (str_replace "?"%char "%3F"%string
  (str_replace " "%char "%20"%string
  (str_replace "#"%char "%23"%string
  (str_replace "%"%char "%25"%string id)))))).

(** The URL of a user's profile. *)
Definition profile_url (self : MatrixClient) (user_id : string) : string :=
  String.append (homeserver_url self)
    (String.append "/_matrix/client/r0/profile/"%string (encode_matrix_id user_id)).

(** [MatrixClient::get_profile] *)
Definition get_profile (self : MatrixClient) (user_id : string)
    : HttpM (Result ProfileData MatrixError) :=
  match access_token self with
  | None => mret (Err NoSession)
  | Some token =>
      response ← http_send (mkHttpReq GET (profile_url self user_id)
                              (String.append "Bearer "%string token) None);
      mret (match response with
            | None => Err Reqwest
            | Some resp =>
                if is_success (http_status resp) then
                  match http_body_profile resp with
                  | Some data => Ok data
                  | None => Err Reqwest
                  end
                else
                  match http_body_text resp with
                  | Some err => Err (ApiError err)
                  | None => Err Reqwest
                  end
            end)
  end.

(** [MatrixClient::set_displayname] *)
Definition set_displayname (self : MatrixClient) (user_id displayname : string)
    : HttpM (Result unit MatrixError) :=
  match access_token self with
  | None => mret (Err NoSession)
  | Some token =>
      let url := String.append (profile_url self user_id) "/displayname"%string in
      let body := JObject [("displayname"%string, JString displayname)] in
      response ← http_send (mkHttpReq PUT url (String.append "Bearer "%string token) (Some body));
      mret (match response with
            | None => Err Reqwest
            | Some resp =>
                if is_success (http_status resp) then Ok tt
                else
                  match http_body_text resp with
                  | Some err => Err (ApiError err)
                  | None => Err Reqwest
                  end
            end)
  end.

End Client.

(** [http::StatusCode] is a [u16]; the profile handlers answer these. *)
Definition HttpStatus : Type := nat.
Definition STATUS_OK : HttpStatus := 200.
Definition STATUS_BAD_REQUEST : HttpStatus := 400.

Record GetProfileQuery := mkGetProfileQuery { gp_access_token : string; gp_user_id : string }.

Record SetProfileRequest := mkSetProfileReq {
  sp_access_token : string;
  sp_user_id : string;
  sp_displayname : option string;
  sp_avatar_url : option string
}.

Record ProfileResponse := mkProfileResp {
  pr_user_id : string;
  pr_displayname : option string;
  pr_avatar_url : option string
}.

(** [MatrixClient::new(homeserver_url)] followed by
    [matrix.access_token = Some(token)]. *)
Definition client_with_token (homeserver_url token : string) : Client.MatrixClient :=
  let matrix := Client.new homeserver_url in
  Client.mkMatrixClient (Client.homeserver_url matrix) (Some token) (Client.user_id matrix).

(** [get_profile] of [routes/users.rs]; [homeserver_url] is
    [state.homeserver_url]. *)
Definition get_profile (homeserver_url : string) (params : GetProfileQuery)
    : HttpM (Result ProfileResponse HttpStatus) :=
  let matrix := client_with_token homeserver_url (gp_access_token params) in
  r ← Client.get_profile matrix (gp_user_id params);
  mret (match r with
        | Ok p => Ok (mkProfileResp (gp_user_id params) (displayname p) (avatar_url p))
        | Err _ => Ok (mkProfileResp (gp_user_id params) None None)
        end).

(** [set_profile] of [routes/users.rs] *)
Definition set_profile (homeserver_url : string) (req : SetProfileRequest)
    : HttpM (Result HttpStatus HttpStatus) :=
  let matrix := client_with_token homeserver_url (sp_access_token req) in
  match sp_displayname req with
  | Some name =>
      r ← Client.set_displayname matrix (sp_user_id req) name;
      mret (match r with Ok _ => Ok STATUS_OK | Err _ => Err STATUS_BAD_REQUEST end)
  | None => mret (Ok STATUS_OK)
  end.

(** The characters [encode_matrix_id] escapes, and those besides [%]. *)
Definition escaped_chars : list ascii := ["%"; "#"; " "; "?"; "&"; "{"; "}"]%char.
Definition reserved_chars : list ascii := ["#"; " "; "?"; "&"; "{"; "}"]%char.

(** The profile request [get_profile] sends for [params]. *)
Definition profile_get_request (homeserver_url : string) (params : GetProfileQuery) : HttpRequest :=
  mkHttpReq GET
    (String.append homeserver_url
       (String.append "/_matrix/client/r0/profile/"%string
          (Client.encode_matrix_id (gp_user_id params))))
    (String.append "Bearer "%string (gp_access_token params)) None.

(** The display-name request [set_profile] sends for [req] and [name]. *)
Definition displayname_put_request (homeserver_url : string) (req : SetProfileRequest)
    (name : string) : HttpRequest :=
  mkHttpReq PUT
    (String.append homeserver_url
       (String.append "/_matrix/client/r0/profile/"%string
          (String.append (Client.encode_matrix_id (sp_user_id req)) "/displayname"%string)))
    (String.append "Bearer "%string (sp_access_token req))
    (Some (JObject [("displayname"%string, JString name)])).

(* ------------------------------------------------------------------ *)
(** ** Lemmas on [encode_matrix_id] *)

Lemma str_append_nil (y : string) : String.append EmptyString y = y.
Proof. reflexivity. Qed.

Lemma str_append_cons (a : ascii) (x y : string) :
  String.append (String a x) y = String a (String.append x y).
Proof. reflexivity. Qed.

Lemma str_append_assoc (x y z : string) :
  String.append (String.append x y) z = String.append x (String.append y z).
Proof.
  induction x as [|a x IH]; [reflexivity|].
  rewrite !str_append_cons, IH. reflexivity.
Qed.

Lemma str_replace_append (c : ascii) (to x y : string) :
  str_replace c to (String.append x y) = String.append (str_replace c to x) (str_replace c to y).
Proof.
  induction x as [|a x IH]; [reflexivity|].
  rewrite str_append_cons. cbn [str_replace].
  destruct (Ascii.eqb a c); rewrite IH; [rewrite str_append_assoc|rewrite str_append_cons];
    reflexivity.
Qed.

Lemma str_replace_absent (c : ascii) (to s : string) :
  str_has c s = false -> str_replace c to s = s.
Proof.
  induction s as [|a s IH]; simpl; [reflexivity|].
  intros H. apply orb_false_iff in H as [Ha Hs]. rewrite Ha, IH by exact Hs. reflexivity.
Qed.

Lemma str_has_append (c : ascii) (x y : string) :
  str_has c (String.append x y) = str_has c x || str_has c y.
Proof.
  induction x as [|a x IH]; [reflexivity|].
  rewrite str_append_cons. cbn [str_has]. rewrite IH. apply orb_assoc.
Qed.

Lemma encode_matrix_id_cons (a : ascii) (s : string) :
  Client.encode_matrix_id (String a s) =
  String.append (Client.encode_matrix_id (String a EmptyString)) (Client.encode_matrix_id s).
Proof.
  change (String a s) with (String.append (String a EmptyString) s).
  unfold Client.encode_matrix_id. rewrite !str_replace_append. reflexivity.
Qed.

Lemma percent_decode_encode_char (a : ascii) (w : string) :
  percent_decode (String.append (Client.encode_matrix_id (String a EmptyString)) w) =
  String a (percent_decode w).
Proof. destruct a as [[] [] [] [] [] [] [] []]; reflexivity. Qed.

Lemma percent_decode_encode (id : string) : percent_decode (Client.encode_matrix_id id) = id.
Proof.
  induction id as [|a id IH]; [reflexivity|].
  rewrite encode_matrix_id_cons, percent_decode_encode_char, IH. reflexivity.
Qed.

Lemma encode_char_reserved (a : ascii) :
  forallb (fun c => negb (str_has c (Client.encode_matrix_id (String a EmptyString))))
          reserved_chars = true.
Proof. destruct a as [[] [] [] [] [] [] [] []]; reflexivity. Qed.

Lemma str_append_inj_l (p x y : string) : String.append p x = String.append p y -> x = y.
Proof.
  induction p as [|a p IH]; [tauto|].
  rewrite !str_append_cons. intros H. injection H. exact IH.
Qed.

(* ------------------------------------------------------------------ *)
(** ** Extra properties: percent-encoding of Matrix ids *)

(** [encode_matrix_id] loses nothing: percent-decoding the encoded id (as
    the homeserver does with the path) gives back the id itself, whatever
    characters it contains. *)
Theorem encode_matrix_id_percent_decode (id : string) :
  percent_decode (Client.encode_matrix_id id) = id.
Proof. exact (percent_decode_encode id). Qed.



(** An encoded id contains none of [#], space, [?], [&], [{], [}]: it
    cannot end the path or start a query or a fragment. *)
Theorem encode_matrix_id_no_reserved (id : string) (c : ascii) :
  In c reserved_chars -> str_has c (Client.encode_matrix_id id) = false.
Proof.
  intros Hc. induction id as [|a id IH]; [reflexivity|].
  rewrite encode_matrix_id_cons, str_has_append, IH, orb_false_r.
  pose proof (encode_char_reserved a) as H. rewrite forallb_forall in H.
  apply negb_true_iff. exact (H c Hc).
Qed.

Lemma encode_matrix_id_no_reserved_witness :
  In "#"%char reserved_chars /\
  str_has "#"%char (Client.encode_matrix_id "#general:agora"%string) = false.
Proof.
  split; [simpl; tauto|].
  apply encode_matrix_id_no_reserved. simpl. tauto.
Defined.

(** An id without any of the escaped characters is sent as is: Matrix
    ids such as [@alice:example.org] or [!room:server] keep their sigils
    and colon. *)
Theorem encode_matrix_id_plain (id : string) :
  (forall c, In c escaped_chars -> str_has c id = false) ->
  Client.encode_matrix_id id = id.
Proof.
  intros H. unfold Client.encode_matrix_id.
  rewrite (str_replace_absent "%"%char) by (apply H; simpl; tauto).
  rewrite (str_replace_absent "#"%char) by (apply H; simpl; tauto).
  rewrite (str_replace_absent " "%char) by (apply H; simpl; tauto).
  rewrite (str_replace_absent "?"%char) by (apply H; simpl; tauto).
  rewrite (str_replace_absent "&"%char) by (apply H; simpl; tauto).
  rewrite (str_replace_absent "{"%char) by (apply H; simpl; tauto).
  rewrite (str_replace_absent "}"%char) by (apply H; simpl; tauto).
  reflexivity.
Qed.

Lemma encode_matrix_id_plain_witness :
  Client.encode_matrix_id "@alice:example.org"%string = "@alice:example.org"%string.
Proof.
  apply encode_matrix_id_plain.
  intros c Hc. simpl in Hc.
  repeat (destruct Hc as [<-|Hc]; [reflexivity|]). contradiction.
Defined.

(* ------------------------------------------------------------------ *)
(** ** Extra properties: the profile handlers *)






(* ================================================================== *)
(** * Routing: [router] of [main.rs] and of the route modules *)

(** An axum [Router] as the list of its [(path, method)] routes;
    [.route(p, m(h))] adds one, [.merge(r)] adds all of [r]'s. *)
Definition Router : Type := list (string * HttpMethod).

Definition route (r : Router) (path : string) (m : HttpMethod) : Router := r ++ [(path, m)].

Definition merge (r1 r2 : Router) : Router := r1 ++ r2.

Definition serves (r : Router) (path : string) (m : HttpMethod) : bool :=
  existsb (fun '(p, m') => String.eqb p path && bool_decide (m' = m)) r.

(** [routes::health::router], [routes::auth::router],
    [routes::sync::router] *)
Definition health_router : Router := route [] "/health"%string GET.
Definition auth_router : Router := route (route [] "/register"%string POST) "/login"%string POST.
Definition sync_router : Router := route [] "/sync"%string GET.

(** [routes::users::router] *)
Definition users_router : Router :=
  route (route (route (route [] "/presence/set"%string POST) "/presence/get"%string GET)
           "/profile/get"%string GET) "/profile/set"%string PUT.

(** [routes::presence_ws::router] *)
Definition presence_ws_router : Router := route [] "/ws/presence"%string GET.

(** [router] of [main.rs], the one the server is started with. *)
Definition main_router : Router := merge (merge (merge [] health_router) auth_router) sync_router.

(* ------------------------------------------------------------------ *)
(** ** Lemmas on the presence handlers *)

Lemma failing_set_kv (r : Redis) (m : gmap string (string * nat)) (k : string) :
  failing (set_kv r m) k = failing r k.
Proof. reflexivity. Qed.

Lemma get_presence_redis (st : AppState) (r : Redis) (u : string) :
  redis st = Some r ->
  get_presence st u =
    let presence := match unwrap_or (redis_get r (presence_key u)) None with
                    | Some v => v | None => "offline"%string end in
    mkResp presence None None (Some (String.eqb presence "online"%string)).
Proof. intros Hr. unfold get_presence. rewrite Hr. reflexivity. Qed.

Lemma serves_in (r : Router) (path : string) (m : HttpMethod) :
  serves r path m = true -> In path (fst <$> r).
Proof.
  induction r as [|[p m0] r IH]; [discriminate|]. cbn [serves existsb].
  unfold serves in IH. intros H. apply orb_true_iff in H as [H|H].
  - apply andb_true_iff in H as [H _]. apply String.eqb_eq in H. left. exact H.
  - right. exact (IH H).
Qed.

(* ------------------------------------------------------------------ *)
(** ** Extra properties: the presence handlers together *)

(** Reading back a write: after a successful [set_presence] for user [u],
    [get_presence u] answers the value written, with [currently_active]
    true exactly when it is "online"; after "offline" it answers
    "offline", not active. *)
Theorem set_then_get_presence (st : AppState) (r : Redis) (tok u p : string) (m : option string) :
  redis st = Some r -> failing r (presence_key u) = false ->
  fst (set_presence st (mkSetReq tok u p m)) = OK /\
  get_presence (snd (set_presence st (mkSetReq tok u p m))) u =
    mkResp (if String.eqb p "offline"%string then "offline"%string else p) None None
           (Some (String.eqb p "online"%string)).
Proof.
  intros Hr Hf. rewrite (set_presence_success st r) by assumption. split; [reflexivity|].
  cbn [snd]. rewrite (get_presence_redis _ (set_kv r (written_kv r (mkSetReq tok u p m)))) by reflexivity.
  unfold redis_get. rewrite failing_set_kv, Hf. cbn [kv set_kv].
  pose proof (written_kv_lookup_key r (mkSetReq tok u p m)) as Hk.
  cbn [req_presence req_user_id] in Hk. rewrite Hk.
  destruct (String.eqb p "offline"%string) eqn:Ho; cbn.
  - apply String.eqb_eq in Ho. subst p. reflexivity.
  - reflexivity.
Qed.

Lemma set_then_get_presence_witness :
  get_presence (snd (set_presence st_one_sub (req_of "@ann:agora"%string "unavailable"%string None)))
    "@ann:agora"%string = mkResp "unavailable"%string None None (Some false).
Proof.
  exact (proj2 (set_then_get_presence st_one_sub redis_empty "token"%string "@ann:agora"%string
                  "unavailable"%string None eq_refl eq_refl)).
Defined.

(** A [set_presence] call for one user, whatever its outcome, changes
    nothing [get_presence] answers for any other user. *)
Theorem set_presence_other_user (st : AppState) (req : SetPresenceRequest) (v : string) :
  v <> req_user_id req -> get_presence (snd (set_presence st req)) v = get_presence st v.
Proof.
  intros Hv.
  destruct (set_presence_cases st req) as [(r & r' & Hr & Hop & Hs) | (_ & _ & Hs)];
    [|rewrite Hs; reflexivity].
  rewrite Hs. cbn [snd].
  destruct (failing r (presence_key (req_user_id req))) eqn:Hf;
    [rewrite presence_store_op_err in Hop by exact Hf; discriminate|].
  rewrite presence_store_op_ok in Hop by exact Hf. injection Hop as <-.
  rewrite (get_presence_redis _ (set_kv r (written_kv r req))) by reflexivity.
  rewrite (get_presence_redis st r) by exact Hr.
  unfold redis_get. rewrite failing_set_kv. cbn [kv set_kv].
  rewrite written_kv_lookup_ne; [reflexivity|].
  intros H. apply Hv. exact (presence_key_inj _ _ H).
Qed.

Lemma set_presence_other_user_witness :
  get_presence (snd (set_presence st_one_sub (req_of "@ann:agora"%string "online"%string None)))
    "@bob:agora"%string = get_presence st_one_sub "@bob:agora"%string.
Proof.
  apply set_presence_other_user. cbn. intros H. discriminate H.
Defined.

(* ------------------------------------------------------------------ *)
(** ** Extra properties: routing *)

(** The server [main.rs] starts routes no request to the presence and
    profile handlers: no path of [routes::users::router] or of
    [routes::presence_ws::router] is served by [main.rs]'s [router], under
    any method. *)
Theorem main_router_omits_presence (path : string) (m m' : HttpMethod) :
  serves users_router path m = true \/ serves presence_ws_router path m = true ->
  serves main_router path m' = false.
Proof.
  intros H. assert (Hin : In path (fst <$> users_router ++ presence_ws_router)).
  { rewrite fmap_app. apply in_or_app.
    destruct H as [H|H]; [left|right]; exact (serves_in _ _ _ H). }
  vm_compute in Hin.
  repeat (destruct Hin as [<-|Hin]; [destruct m'; reflexivity|]). contradiction.
Qed.

Lemma main_router_omits_presence_witness :
  serves main_router "/presence/set"%string POST = false.
Proof.
  apply (main_router_omits_presence "/presence/set"%string POST POST).
  left. reflexivity.
Defined.

(* ================================================================== *)
(** * More of [handle_socket] *)

(** Successive [set_presence] calls. *)
Definition set_presence_all (reqs : list SetPresenceRequest) (st : AppState) : AppState :=
  fold_left (fun st req => snd (set_presence st req)) reqs st.

Lemma broadcast_send_lookup (e : PresenceEvent) (bus : Bus) (i : nat) (rx : Rx) :
  bus !! i = Some (Some rx) -> snd (broadcast_send e bus) !! i = Some (Some (rx_push e rx)).
Proof.
  intros Hi. unfold broadcast_send.
  pose proof (receiver_count_pos _ _ _ Hi) as Hc.
  destruct (receiver_count bus) as [|n]; [contradiction|].
  simpl. rewrite list_lookup_fmap, Hi. reflexivity.
Qed.

Lemma broadcast_send_none (e : PresenceEvent) (bus : Bus) (i : nat) :
  bus !! i = Some None -> snd (broadcast_send e bus) !! i = Some None.
Proof.
  intros Hi. unfold broadcast_send.
  destruct (receiver_count bus); [exact Hi|]. simpl. rewrite list_lookup_fmap, Hi. reflexivity.
Qed.

Lemma set_presence_all_bus (reqs : list SetPresenceRequest) (st : AppState) (r : Redis)
    (i : nat) (rx : Rx) :
  redis st = Some r -> err_keys r = [] -> presence_tx st !! i = Some (Some rx) ->
  exists r', redis (set_presence_all reqs st) = Some r' /\ err_keys r' = [] /\
    presence_tx (set_presence_all reqs st) !! i = Some (Some (push_all (req_event <$> reqs) rx)).
Proof.
  revert st r rx. induction reqs as [|q reqs IH]; intros st r rx Hr He Hi.
  - exists r. split; [exact Hr|split; [exact He|exact Hi]].
  - assert (Hf : failing r (presence_key (req_user_id q)) = false)
      by (unfold failing; rewrite He; reflexivity).
    change (set_presence_all (q :: reqs) st) with (set_presence_all reqs (snd (set_presence st q))).
    rewrite (set_presence_success st r q Hr Hf). cbn [snd].
    apply (IH _ (set_kv r (written_kv r q))); [reflexivity|exact He|].
    cbn [presence_tx]. apply broadcast_send_lookup. exact Hi.
Qed.

Lemma writer_step_none (w : Writer) (st : AppState) (i : nat) :
  presence_tx st !! i = Some None -> presence_tx (snd (writer_step w st)) !! i = Some None.
Proof.
  intros Hi. destruct w as [q pc]. unfold writer_step. cbn [wpc wreq].
  destruct pc.
  - destruct (set_presence_write st q) as [c|st'] eqn:Ew; [exact Hi|].
    destruct (set_presence_write_inr _ _ _ Ew) as (r & _ & _ & ->). exact Hi.
  - unfold set_presence_publish.
    pose proof (broadcast_send_none (mkEvent (req_user_id q) (req_presence q)) _ _ Hi) as H.
    destruct (broadcast_send _ _). exact H.
  - exact Hi.
Qed.

Lemma sys_step_closed (sys : Sys) (c : Choice) :
  phase (sess sys) = PClosed ->
  sess (sys_step sys c) = sess sys /\
  (forall i, presence_tx (app sys) !! i = Some None -> presence_tx (app (sys_step sys c)) !! i = Some None).
Proof.
  destruct sys as [st s ws]. cbn [sess app]. intros Hp. destruct c as [inp|n].
  - unfold sys_step, session_step. cbn [sess app writers]. rewrite Hp. split; [reflexivity|tauto].
  - unfold sys_step. cbn [sess app writers].
    destruct (ws !! n) as [w|]; [|split; [reflexivity|tauto]].
    pose proof (writer_step_none w st) as H.
    destruct (writer_step w st) as [w' st']. cbn [snd] in H. split; [reflexivity|exact H].
Qed.

Lemma receiver_count_drop (bus : Bus) (i : nat) (rx : Rx) :
  bus !! i = Some (Some rx) -> S (receiver_count (<[i := None]> bus)) = receiver_count bus.
Proof.
  unfold receiver_count. revert i. induction bus as [|o bus IH]; intros i Hi; [discriminate|].
  destruct i as [|i].
  - change ((o :: bus) !! 0) with (Some o) in Hi. injection Hi as ->.
    change (<[0 := None]> (Some rx :: bus)) with (None :: bus).
    rewrite filter_cons_False by (intros [x H]; discriminate H).
    rewrite filter_cons_True by (eexists; reflexivity). reflexivity.
  - change ((o :: bus) !! S i) with (bus !! i) in Hi.
    change (<[S i := None]> (o :: bus)) with (o :: <[i := None]> bus).
    specialize (IH i Hi).
    destruct o as [x|].
    + rewrite !filter_cons_True by (eexists; reflexivity). rewrite !length_cons, <- IH. reflexivity.
    + rewrite !filter_cons_False by (intros [y H]; discriminate H). exact IH.
Qed.

(* ------------------------------------------------------------------ *)
(** ** Extra properties: sessions *)

(** Without a store, or when its KEYS scan fails, a new session sends no
    snapshot frame: it subscribes and goes straight to streaming (the scan
    error is swallowed by [unwrap_or_default]). *)
Theorem connect_without_snapshot (st : AppState) (s : Session) (ws : list Writer) (i : SessInput) :
  phase s = PStart -> peer_alive s = true ->
  (redis st = None ->
   sys_step (mkSys st s ws) (CSess i) =
     mkSys (mkState None (presence_tx st ++ [Some rx_empty]))
           (mkSession PStream (length (presence_tx st)) (sent s) (log s) true) ws) /\
  (forall r, redis st = Some r -> keys_err r = true ->
   run (mkSys st s ws) (repeat (CSess i) 3) =
     mkSys (mkState (Some r) (presence_tx st ++ [Some rx_empty]))
           (mkSession PStream (length (presence_tx st)) (sent s) (log s) true) ws).
Proof.
  intros Hp Ha. split.
  - intros Hr. destruct st as [red bus]. destruct s as [ph id snt lg al].
    cbn [redis phase peer_alive] in Hr, Hp, Ha. subst red ph al. reflexivity.
  - intros r Hr Hk.
    assert (Hs : snapshot_keys r = []) by (unfold snapshot_keys, redis_keys; rewrite Hk; reflexivity).
    pose proof (connect_run r st s ws i Hr Hp Ha) as H. rewrite Hs, app_nil_r in H. exact H.
Qed.

Lemma connect_without_snapshot_witness :
  run (mkSys (mkState (Some (mkRedis ∅ [] true)) []) fresh_session []) (repeat (CSess IBus) 3) =
    mkSys (mkState (Some (mkRedis ∅ [] true)) [Some rx_empty]) (mkSession PStream 0 [] [] true) [].
Proof.
  exact (proj2 (connect_without_snapshot (mkState (Some (mkRedis ∅ [] true)) []) fresh_session []
                  IBus eq_refl eq_refl) (mkRedis ∅ [] true) eq_refl eq_refl).
Defined.










